(** * qiskit-bot: the post-tag release process ([qiskit_bot/release_process.py])

    A shallow embedding of [_run_reno], [bump_meta], [_generate_changelog],
    [create_github_release] and [finish_release].

    A Python [str] is held as the bytes of its UTF-8 encoding, so that the
    characters of ASCII are one byte each and splitting, searching and
    matching at such characters are the same on the bytes as on the text.

    Python values whose run-time type decides the behaviour (the pieces of a
    split version string, the integer literals they are compared with) are
    kept as tagged values [pyval]; Python exceptions are an explicit outcome;
    calls to the collaborators the module imports ([qiskit_bot.git], the
    GitHub client, [subprocess], [fasteners], the file system) are recorded
    as events in the world, their answers being read from an environment
    that every theorem quantifies over. *)

From stdpp Require Import base option list strings pretty gmap.
From Stdlib Require Import ZArith Ascii String.

Local Open Scope string_scope.
Local Open Scope Z_scope.

(** ** Strings *)

Module PyString.

Definition nl : string := String (ascii_of_nat 10) EmptyString.

(** [s.split(sep)] for a one-character separator: never empty, keeps
    empty fields. *)
Fixpoint split_go (sep : ascii) (cur : string) (s : string) : list string :=
  match s with
  | EmptyString => [String.rev cur]
  | String c r =>
      if Ascii.eqb c sep then String.rev cur :: split_go sep EmptyString r
      else split_go sep (String c cur) r
  end.

Definition split (sep : ascii) (s : string) : list string :=
  split_go sep EmptyString s.

(** [sub in s] *)
Fixpoint contains (sub s : string) : bool :=
  String.prefix sub s ||
  match s with
  | EmptyString => false
  | String _ r => contains sub r
  end.

(** [sep.join(l)] on a list of strings *)
Definition join (sep : string) (l : list string) : string :=
  String.concat sep l.

(** The bytes that continue a character begun by an earlier byte. *)
(** The text holds characters of ASCII only. *)
Definition is_ascii (s : string) : bool :=
  forallb (fun c => (N_of_ascii c <? 128)%N) (list_ascii_of_string s).

Definition is_continuation (c : ascii) : bool :=
  let n := N_of_ascii c in ((128 <=? n) && (n <=? 191))%N.

Fixpoint drop_continuation (s : string) : string :=
  match s with
  | EmptyString => EmptyString
  | String c r => if is_continuation c then drop_continuation r else s
  end.

(** [s[1:]]: the text less its first character, that is less its first
    byte and the bytes that continue it. *)
Definition tail (s : string) : string :=
  match s with
  | EmptyString => EmptyString
  | String _ r => drop_continuation r
  end.

Fixpoint mem_char (c : ascii) (s : string) : bool :=
  match s with
  | EmptyString => false
  | String d r => Ascii.eqb c d || mem_char c r
  end.

(** The characters of the text, each with the bytes that continue it. *)
Fixpoint chars_go (cur : string) (s : string) : list string :=
  match s with
  | EmptyString =>
      match cur with EmptyString => [] | _ => [String.rev cur] end
  | String c r =>
      if is_continuation c then chars_go (String c cur) r
      else match cur with
           | EmptyString => chars_go (String c EmptyString) r
           | _ => String.rev cur :: chars_go (String c EmptyString) r
           end
  end.

Definition chars (s : string) : list string := chars_go EmptyString s.

(** [os.path.join(a, b)] of [posixpath], for two components *)
Definition ends_with_slash (a : string) : bool :=
  match String.rev a with
  | String c _ => Ascii.eqb c "/"
  | EmptyString => false
  end.

Definition os_path_join (a b : string) : string :=
  match b with
  | String "/" _ => b
  | _ =>
      match a with
      | EmptyString => b
      | _ => if ends_with_slash a then a +:+ b else a +:+ "/" +:+ b
      end
  end.

(** [s.replace(old, new)]: the occurrences of [old] are found from the
    left and do not overlap; [skip] counts the characters of an
    occurrence still to be passed over. *)
Fixpoint replace_go (old new : string) (skip : nat) (s : string) : string :=
  match s with
  | EmptyString => EmptyString
  | String c r =>
      match skip with
      | S k => replace_go old new k r
      | O =>
          if String.prefix old s
          then new +:+ replace_go old new (Nat.pred (String.length old)) r
          else String c (replace_go old new O r)
      end
  end.

Definition replace (old new s : string) : string :=
  match old with
  | EmptyString =>
      new +:+ String.concat new (chars s) +:+
      match s with EmptyString => EmptyString | _ => new end
  | _ => replace_go old new O s
  end.

(** The lines of a text file as iteration yields them: each keeps its
    terminating newline. *)
Fixpoint lines_go (cur : string) (s : string) : list string :=
  match s with
  | EmptyString =>
      match cur with EmptyString => [] | _ => [String.rev cur] end
  | String c r =>
      if Ascii.eqb c (ascii_of_nat 10)
      then String.rev (String c cur) :: lines_go EmptyString r
      else lines_go (String c cur) r
  end.

Definition lines (s : string) : list string := lines_go EmptyString s.

End PyString.

(** ** Exceptions and outcomes *)

Inductive exn : Type :=
| TypeError
| IndexError
| KeyError
| ValueError
| AttributeError
| UnsupportedOperation           (* io.UnsupportedOperation *)
| CalledProcessError             (* subprocess.CalledProcessError *)
| OtherError (name : string).    (* any other exception class, by name *)

Global Instance exn_eq_dec : EqDecision exn.
Proof. solve_decision. Defined.

Inductive outcome (A : Type) : Type :=
| Ok (a : A)
| Raise (e : exn).
Arguments Ok {A} a.
Arguments Raise {A} e.

Global Instance outcome_ret : MRet outcome := fun A a => Ok a.
Global Instance outcome_bind : MBind outcome := fun A B f m =>
  match m with
  | Ok a => f a
  | Raise e => Raise e
  end.

Definition raised {A} (o : outcome A) : bool :=
  match o with Ok _ => false | Raise _ => true end.

(** ** Python values *)

#[local] Set Warnings "-register-all".

Inductive pyval : Type :=
| PNone
| PInt (z : Z)
| PStr (s : string)
| PList (l : list pyval).

Module Py.

(** [a == b]: values of different types are unequal, never an error. *)
Fixpoint eq (a b : pyval) : bool :=
  match a, b with
  | PNone, PNone => true
  | PInt x, PInt y => Z.eqb x y
  | PStr x, PStr y => String.eqb x y
  | PList x, PList y =>
      (fix go (x y : list pyval) : bool :=
         match x, y with
         | [], [] => true
         | u :: x', v :: y' => eq u v && go x' y'
         | _, _ => false
         end) x y
  | _, _ => false
  end.

(** [a + b] *)
Definition add (a b : pyval) : outcome pyval :=
  match a, b with
  | PInt x, PInt y => Ok (PInt (x + y))
  | PStr x, PStr y => Ok (PStr (x +:+ y))
  | PList x, PList y => Ok (PList (x ++ y))
  | _, _ => Raise TypeError
  end.

(** [a - b] *)
Definition sub (a b : pyval) : outcome pyval :=
  match a, b with
  | PInt x, PInt y => Ok (PInt (x - y))
  | _, _ => Raise TypeError
  end.

(** [a > b]: ordering is defined within a type only. *)
Fixpoint gt (a b : pyval) : outcome bool :=
  match a, b with
  | PInt x, PInt y => Ok (Z.ltb y x)
  | PStr x, PStr y => Ok (String.ltb y x)
  | PList x, PList y =>
      (fix go (x y : list pyval) : outcome bool :=
         match x, y with
         | u :: x', v :: y' => if eq u v then go x' y' else gt u v
         | _ :: _, [] => Ok true
         | [], _ => Ok false
         end) x y
  | _, _ => Raise TypeError
  end.

(** [l[i]] for [i >= 0] *)
Definition index {A} (l : list A) (i : nat) : outcome A :=
  match l !! i with
  | Some x => Ok x
  | None => Raise IndexError
  end.

(** [repr] of a string, for the characters of ASCII *)
Definition hex_digit (n : N) : ascii :=
  if (n <? 10)%N then ascii_of_N (48 + n) else ascii_of_N (87 + n).

Definition repr_char (quote : ascii) (c : ascii) : string :=
  let n := N_of_ascii c in
  if Ascii.eqb c quote || Ascii.eqb c "\" then String "\" (String c EmptyString)
  else if (n =? 9)%N then "\t"
  else if (n =? 10)%N then "\n"
  else if (n =? 13)%N then "\r"
  else if (n <? 32)%N || (n =? 127)%N
       then String "\" (String "x" (String (hex_digit (n / 16))
              (String (hex_digit (n mod 16)) EmptyString)))
  else String c EmptyString.

Definition repr_str (s : string) : string :=
  let dquote : ascii := ascii_of_nat 34 in
  let quote : ascii :=
    if PyString.mem_char "'" s && negb (PyString.mem_char dquote s)
    then dquote else "'"%char in
  String quote
    (String.concat EmptyString (repr_char quote <$> list_ascii_of_string s)
     +:+ String quote EmptyString).

Fixpoint repr (v : pyval) : string :=
  match v with
  | PNone => "None"
  | PInt z => pretty z
  | PStr s => repr_str s
  | PList l => "[" +:+ String.concat ", " (repr <$> l) +:+ "]"
  end.

(** [str(v)], which is what the [%s] conversion applies *)
Definition str (v : pyval) : string :=
  match v with
  | PStr s => s
  | _ => repr v
  end.

(** [sep.join(v)]: every item must be a string. *)
Fixpoint join_items (sep : string) (l : list pyval) : outcome (list string) :=
  match l with
  | [] => Ok []
  | PStr s :: r => ss ← join_items sep r; Ok (s :: ss)
  | _ :: _ => Raise TypeError
  end.

Definition join (sep : string) (v : pyval) : outcome string :=
  match v with
  | PList l => ss ← join_items sep l; Ok (PyString.join sep ss)
  | PStr s => Ok (PyString.join sep (PyString.chars s))
  | _ => Raise TypeError
  end.

(** [int(s)] in base 10, for a text of ASCII characters: white space around
    (space, tab, line feed, vertical tab, form feed, carriage return), an
    optional sign, then digits that single underscores may separate. The
    bound that later interpreters put on the number of digits is not
    modelled. *)
Definition is_space (c : ascii) : bool :=
  let n := N_of_ascii c in ((9 <=? n) && (n <=? 13) || (n =? 32))%N.

Definition is_digit (c : ascii) : bool :=
  let n := N_of_ascii c in ((48 <=? n) && (n <=? 57))%N.

Fixpoint lstrip (s : string) : string :=
  match s with
  | String c r => if is_space c then lstrip r else s
  | EmptyString => EmptyString
  end.

Fixpoint rstrip (s : string) : string :=
  match s with
  | String c r =>
      match rstrip r with
      | EmptyString => if is_space c then EmptyString else String c EmptyString
      | r' => String c r'
      end
  | EmptyString => EmptyString
  end.

Definition strip (s : string) : string := rstrip (lstrip s).

Fixpoint digits (acc : Z) (after_digit : bool) (s : string) : option Z :=
  match s with
  | EmptyString => if after_digit then Some acc else None
  | String c r =>
      if is_digit c
      then digits (10 * acc + (Z.of_N (N_of_ascii c) - 48)) true r
      else if Ascii.eqb c "_" && after_digit then digits acc false r
      else None
  end.

Definition int (s : string) : outcome Z :=
  let body := strip s in
  let parsed :=
    match body with
    | String "-" r => Z.opp <$> digits 0 false r
    | String "+" r => digits 0 false r
    | _ => digits 0 false body
    end in
  match parsed with
  | Some z => Ok z
  | None => Raise ValueError
  end.

End Py.

(** ** The regular expression of the changelog *)

Module Re.

(** The fragment of [re] that the compiled pattern uses. *)
Inductive item : Type :=
| Bol                 (* ^ *)
| AnyStar             (* .* : greedy, any character but a newline *)
| Lit (c : ascii)     (* an escaped literal character *)
| Open                (* ( : group 1 starts *)
| Close.              (* ) : group 1 ends *)

Definition is_newline (c : ascii) : bool := Ascii.eqb c (ascii_of_nat 10).

(** Greedy repetition by backtracking: the longest run of characters is
    tried first, then shorter ones. [pos] counts the characters consumed. *)
Fixpoint star (k : nat -> list ascii -> option (nat * nat))
         (pos : nat) (s : list ascii) : option (nat * nat) :=
  match s with
  | c :: r =>
      if is_newline c then k pos s
      else match star k (S pos) r with
           | Some m => Some m
           | None => k pos s
           end
  | [] => k pos []
  end.

(** [run p gs ge pos s]: match the rest [p] of the pattern against the
    rest [s] of the text; the answer is the span of group 1. *)
Fixpoint run (p : list item) (gs ge pos : nat) (s : list ascii)
  : option (nat * nat) :=
  match p with
  | [] => Some (gs, ge)
  | Bol :: p' => if Nat.eqb pos 0 then run p' gs ge pos s else None
  | AnyStar :: p' => star (fun pos' s' => run p' gs ge pos' s') pos s
  | Lit c :: p' =>
      match s with
      | d :: r => if Ascii.eqb c d then run p' gs ge (S pos) r else None
      | [] => None
      end
  | Open :: p' => run p' pos ge pos s
  | Close :: p' => run p' gs pos pos s
  end.

(** [p.match(s)[1]] when the match succeeds, [None] when [p.match(s)] is
    [None]. *)
Definition match_group1 (p : list item) (s : string) : option string :=
  match run p 0 0 0 (list_ascii_of_string s) with
  | Some (gs, ge) => Some (String.substring gs (ge - gs) s)
  | None => None
  end.

End Re.

(** The pattern [pr_regex] compiles: the start of the text, any
    characters, an escaped open parenthesis, group 1 holding any characters,
    an escaped close parenthesis. *)
Definition pr_regex : list Re.item :=
  [Re.Bol; Re.AnyStar; Re.Lit "("; Re.Open; Re.AnyStar; Re.Close; Re.Lit ")"].

(** ** The objects the module is handed *)

(** A hosted repository as the GitHub client returns it. *)
Record GhRepo : Type := {
  gh_full_name : string;
  gh_name : string;
}.

(** The bot's own repository object: [repo_name] is the qualified
    owner/project name, [name] the display name. *)
Record Repository : Type := {
  repo_name : string;
  name : string;
  local_path : string;
  gh_repo : GhRepo;
}.

(** [bump_meta] reads [meta_repo.gh_repo], which a bot repository has and a
    hosted repository object has not; [finish_release] passes the latter. *)
Inductive repo_obj : Type :=
| BotRepo (r : Repository)
| HostedRepo (g : GhRepo).

Definition attr_gh_repo (o : repo_obj) : outcome GhRepo :=
  match o with
  | BotRepo r => Ok (gh_repo r)
  | HostedRepo _ => Raise AttributeError
  end.

(** An open pull request: its title and the name of its head branch. *)
Record Pull : Type := {
  title : string;
  head : string;
}.

(** [conf['repos'][name]], taken to hold its three keys, with a truth value
    under the first two. An entry that lacks one of them, on which the
    subscript at line 139, 141 or 162 raises [KeyError] under the first
    lock, is not modelled. *)
Record RepoConfig : Type := {
  reno : bool;
  branch_on_release : bool;
  changelog_categories : list (string * string);
}.

(** The configuration dictionary: a key that is absent is [None]. *)
Record Conf : Type := {
  working_dir : option string;
  api_key : option string;
  repos : option (gmap string RepoConfig);
}.

(** ** Events, environment and world *)

Inductive event : Type :=
| ERunProcess (args : list string) (cwd : string)
| ELogException (msg : string)
| EGetLatestTag (repo : Repository)
| EGetPulls (gh : GhRepo)
| ECreateBranch (branch start : string) (repo : repo_obj) (push : option bool)
| ECheckoutRef (ref : string)
| EOpen (path mode : string)
| EClose (path : string)
| ECommitAll (repo : repo_obj) (msg : string)
| ECreatePull (gh : GhRepo) (title base head body : string)
| EGetGitLog (repo : Repository) (range : string)
| EGetPull (gh : GhRepo) (number : Z)
| ECreateGitRelease (gh : GhRepo) (tag release_name : string) (body : pyval)
| EGetRepo (full_name : string)
| EGetBranches (gh : GhRepo)
| EAcquire (path : string)
| ERelease (path : string)
| ECheckoutMaster (repo : Repository) (pull : bool).

(** How a child process ends: it ran and exited with a status, or it could
    not be started at all. *)
Inductive proc_outcome : Type :=
| Exited (returncode : Z) (stdout : string)
| SpawnFailed (e : exn).

(** Modelled from the spec: the interfaces of the collaborators, whose
    code ([qiskit_bot.git], the GitHub client, [reno]) is not part of the
    module. As the interface section has it, the latest tag is a string,
    the log a sequence of lines, and the hosted repository lists its open
    pull requests, its branches and the labels of a pull request.

    The record holds their answers in one run. [fails] says which of the
    calls that return nothing raise, and with what; [re_match p s] is group
    1 of [re.match(p, s)] for the patterns built at run time ([None] when
    there is no match, an exception when the pattern does not compile);
    [int_of_text s] is what [int(s)] returns for a text with characters
    outside ASCII, among which Unicode has white space and decimal digits
    of its own ([None] when it raises [ValueError]). *)
Record env : Type := {
  process : list string -> string -> proc_outcome;
  latest_tag : Repository -> outcome string;
  open_pulls : GhRepo -> outcome (list Pull);
  branches : GhRepo -> outcome (list string);
  git_log : Repository -> string -> outcome (list string);
  pull_labels : GhRepo -> Z -> outcome (list string);
  get_repo : string -> outcome GhRepo;
  re_match : string -> string -> outcome (option string);
  int_of_text : string -> option Z;
  fails : event -> option exn;
}.

(** The world of one run: the files as the module itself and the lock it
    takes read and write them, the locks this run holds, and the events so
    far, newest first. What the git commands, the [reno] process and the
    hosting service do to the disk is not part of [files]. *)
Record world : Type := {
  files : gmap string string;
  held : list string;
  trace : list event;
}.

Definition log (e : event) (w : world) : world :=
  {| files := files w; held := held w; trace := e :: trace w |}.

Definition write_file (path content : string) (w : world) : world :=
  {| files := <[path := content]> (files w); held := held w; trace := trace w |}.

(** Taking a lock opens its file for appending: the file is created empty
    when it is not there and is left as it is otherwise. *)
Definition touch (path : string) (fs : gmap string string)
  : gmap string string :=
  match fs !! path with
  | Some _ => fs
  | None => <[path := EmptyString]> fs
  end.

Definition acquire (path : string) (w : world) : world :=
  {| files := touch path (files w); held := path :: held w;
     trace := EAcquire path :: trace w |}.

Fixpoint remove_first (path : string) (l : list string) : list string :=
  match l with
  | [] => []
  | p :: r => if String.eqb p path then r else p :: remove_first path r
  end.

Definition release (path : string) (w : world) : world :=
  {| files := files w; held := remove_first path (held w);
     trace := ERelease path :: trace w |}.

Definition init_world (fs : gmap string string) : world :=
  {| files := fs; held := []; trace := [] |}.

(** The events of a run in the order they happened. *)
Definition events (w : world) : list event := rev (trace w).

(** ** The monad of the embedding: state and exceptions *)

Definition M (A : Type) : Type := world -> outcome A * world.

Global Instance M_ret : MRet M := fun A a w => (Ok a, w).
Global Instance M_bind : MBind M := fun A B f m w =>
  match m w with
  | (Ok a, w') => f a w'
  | (Raise e, w') => (Raise e, w')
  end.

Definition lift {A} (o : outcome A) : M A := fun w => (o, w).

(** [try: m  except <handles>: h] *)
Definition try_except {A} (m : M A) (handles : exn -> bool) (h : M A) : M A :=
  fun w =>
    match m w with
    | (Raise e, w') => if handles e then h w' else (Raise e, w')
    | r => r
    end.

(** [for x in l: f x] *)
Fixpoint for_each {A} (l : list A) (f : A -> M unit) : M unit :=
  match l with
  | [] => mret tt
  | x :: r => f x ;; for_each r f
  end.

(** ** Calls to the collaborators *)

Section Release.

Variable E : env.

(** A call that returns nothing: it is recorded, then raises if the
    environment says so. *)
Definition call (e : event) : M unit := fun w =>
  match fails E e with
  | Some x => (Raise x, log e w)
  | None => (Ok tt, log e w)
  end.

(** A call that returns an answer. *)
Definition query {A} (e : event) (answer : outcome A) : M A := fun w =>
  (answer, log e w).

(** [subprocess.run(args, cwd=cwd, capture_output=True, check=check)]:
    the captured standard output, [CalledProcessError] on a non-zero
    exit status when [check] is set. *)
Definition subprocess_run (args : list string) (cwd : string) (check : bool)
  : M string := fun w =>
  let w' := log (ERunProcess args cwd) w in
  match process E args cwd with
  | Exited code out =>
      if check && negb (code =? 0) then (Raise CalledProcessError, w')
      else (Ok out, w')
  | SpawnFailed e => (Raise e, w')
  end.

(** [with fasteners.InterProcessLock(path): body]: the lock is taken, the
    body runs, and the lock is given back whether the body returned or
    raised; the body's outcome is the outcome of the statement. *)
Definition with_lock {A} (path : string) (body : M A) : M A := fun w =>
  match fails E (EAcquire path) with
  | Some x => (Raise x, w)
  | None =>
      let (r, w') := body (acquire path w) in
      (r, release path w')
  end.

(** [with open(path, mode) as fd: body fd]. Opening for writing creates
    the file or empties it; the file is closed however the body ends. *)
Definition with_open {A} (path mode : string) (body : string * string -> M A)
  : M A := fun w =>
  match fails E (EOpen path mode) with
  | Some x => (Raise x, log (EOpen path mode) w)
  | None =>
      let w1 := log (EOpen path mode) w in
      let w2 := if String.eqb mode "w" then write_file path EmptyString w1
                else w1 in
      let (r, w3) := body (path, mode) w2 in
      (r, log (EClose path) w3)
  end.

(** [for line in fd]: the lines of the file, or [io.UnsupportedOperation]
    when the handle was not opened for reading. *)
Definition file_lines (fd : string * string) : M (list string) := fun w =>
  let (path, mode) := fd in
  if PyString.mem_char "r" mode || PyString.mem_char "+" mode
  then (Ok (PyString.lines (default EmptyString (files w !! path))), w)
  else (Raise UnsupportedOperation, w).

(** ** [_run_reno] *)

Definition is_CalledProcessError (e : exn) : bool :=
  bool_decide (e = CalledProcessError).

(** The report is the captured standard output; [None] stands for
    Python's [None]. *)
Definition _run_reno (local_path version_number : string)
  : M (option string) :=
  try_except
    (out ← subprocess_run ["reno"; "report"; "--version"; version_number]
                           local_path true;
     mret (Some out))
    is_CalledProcessError
    (query (ELogException "reno report failed") (Ok tt) ;;
     mret None).

(** ** [bump_meta] *)

(** Lines 44-50: the new version of the meta package, from the pieces of
    the released version and of the latest tag. The pieces come out of
    [str.split] and are strings; [0] and [1] are integers. *)
Definition new_meta_version (version_number_pieces meta_version_pieces
                             : list string) : outcome string :=
  p2 ← Py.index version_number_pieces 2;
  if Py.eq (PStr p2) (PInt 0) then
    m0 ← Py.index meta_version_pieces 0;
    m1 ← Py.index meta_version_pieces 1;
    minor ← Py.add (PStr m1) (PInt 1);
    Ok (m0 +:+ "." +:+ Py.str minor +:+ "." +:+ Py.str (PInt 0))
  else
    m0 ← Py.index meta_version_pieces 0;
    m1 ← Py.index meta_version_pieces 1;
    m2 ← Py.index meta_version_pieces 2;
    patch ← Py.add (PStr m2) (PInt 1);
    Ok (m0 +:+ "." +:+ m1 +:+ "." +:+ Py.str patch).

(** The body of the loop of lines 67-76. [line.replace] builds a new
    string that the code drops: the line is not changed and nothing is
    written to the file. *)
Definition rewrite_line (package_name requirements_str new_version
                         line : string) : outcome unit :=
  if PyString.contains package_name line then
    m ← re_match E (package_name +:+ "==(.*)" +:+ PyString.nl) line;
    match m with
    | None => Raise TypeError
    | Some old_version =>
        let _dropped :=
          PyString.replace (package_name +:+ "==" +:+ old_version)
                           requirements_str line in
        Ok tt
    end
  else if PyString.contains "version=" line then
    m ← re_match E "version=(.*)" line;
    match m with
    | None => Raise TypeError
    | Some old_version =>
        if negb (String.eqb old_version new_version) then
          let _dropped :=
            PyString.replace ("version=" +:+ old_version)
                             ("version=" +:+ new_version) line in
          Ok tt
        else Ok tt
    end
  else Ok tt.

(** Lines 66-76: the edit of the manifest. *)
Definition edit_setup_py (setup_py_path package_name requirements_str
                          new_version : string) : M unit :=
  with_open setup_py_path "w" (fun fd =>
    ls ← file_lines fd;
    for_each ls (fun line =>
      lift (rewrite_line package_name requirements_str new_version line))).

(** [for pull in pulls: if pull.title == title: ... break] *)
Definition find_pull (wanted : string) (pulls : list Pull) : option Pull :=
  List.find (fun pull => String.eqb (title pull) wanted) pulls.

(** Lines 51-87: everything after the new version is known. *)
Definition propose_bump (meta_repo : repo_obj) (repo : Repository)
           (version_number new_version : string) : M unit :=
  package_name ← lift (Py.index (PyString.split "/" (repo_name repo)) 1);
  gh ← lift (attr_gh_repo meta_repo);
  pulls ← query (EGetPulls gh) (open_pulls E gh);
  let setup_py_path := PyString.os_path_join (local_path repo) "setup.py" in
  let title := "Bump Meta" in
  let requirements_str := package_name +:+ "==" +:+ version_number in
  bump_pr ← match find_pull title pulls with
            | Some pull => mret (Some pull)
            | None =>
                call (ECreateBranch "bump_meta" "origin/master" meta_repo None) ;;
                mret None
            end;
  call (ECheckoutRef "bump_meta") ;;
  edit_setup_py setup_py_path package_name requirements_str new_version ;;
  let body := PyString.nl +:+ "Bump the meta repo version to include:"
              +:+ PyString.nl +:+ PyString.nl +:+ requirements_str
              +:+ PyString.nl +:+ PyString.nl in
  call (ECommitAll meta_repo ("Bump version for " +:+ requirements_str)) ;;
  match bump_pr with
  | None => call (ECreatePull gh title "master" "bump_meta" body)
  | Some _ => mret tt
  end.

Definition bump_meta (meta_repo : repo_obj) (repo : Repository)
           (version_number : string) (conf : Conf)
           (reno : option string) : M unit :=
  let version_number_pieces := PyString.split "." version_number in
  meta_version ← query (EGetLatestTag repo) (latest_tag E repo);
  let meta_version_pieces := PyString.split "." meta_version in
  new_version ← lift (new_meta_version version_number_pieces
                                       meta_version_pieces);
  propose_bump meta_repo repo version_number new_version.

(** ** [_generate_changelog] *)

(** Lines 97-103: the summary of a log line and the text taken for its
    pull-request number. Subscripting the [None] of a failed match is a
    [TypeError]. *)
Definition summary_of (line : string) : string :=
  let pieces := PyString.split " " line in
  if PyString.contains "tag:" line
  then PyString.join " " (drop 3 pieces)
  else PyString.join " " (drop 1 pieces).

Definition summarize (line : string) : outcome (string * string) :=
  let summary := summary_of line in
  match Re.match_group1 pr_regex summary with
  | None => Raise TypeError
  | Some g => Ok (summary, PyString.tail g)
  end.

Fixpoint summarize_all (git_log : list string)
  : outcome (list (string * string)) :=
  match git_log with
  | [] => Ok []
  | line :: r =>
      entry ← summarize line;
      entries ← summarize_all r;
      Ok (entry :: entries)
  end.

(** The dictionary from label to the summaries filed under it, in the
    order of the keys of [categories]. *)
Definition changelog_dict_t : Type := list (string * list string).

Fixpoint dict_mem (label : string) (d : changelog_dict_t) : bool :=
  match d with
  | [] => false
  | (k, _) :: r => String.eqb k label || dict_mem label r
  end.

(** [d[label].append(summary)] *)
Fixpoint dict_append (label summary : string) (d : changelog_dict_t)
  : changelog_dict_t :=
  match d with
  | [] => []
  | (k, v) :: r =>
      if String.eqb k label then (k, (v ++ [summary])%list) :: r
      else (k, v) :: dict_append label summary r
  end.

Definition file_under (summary : string) (d : changelog_dict_t)
           (label : string) : changelog_dict_t :=
  if dict_mem label d then dict_append label summary d else d.

(** [int(pr)] at line 107 *)
Definition builtin_int (pr : string) : outcome Z :=
  if PyString.is_ascii pr then Py.int pr
  else match int_of_text E pr with
       | Some number => Ok number
       | None => Raise ValueError
       end.

(** Lines 106-110 *)
Fixpoint collect (gh : GhRepo) (git_summaries : list (string * string))
         (d : changelog_dict_t) : M changelog_dict_t :=
  match git_summaries with
  | [] => mret d
  | (summary, pr) :: r =>
      number ← lift (builtin_int pr);
      labels ← query (EGetPull gh number) (pull_labels E gh number);
      collect gh r (foldl (file_under summary) d labels)
  end.

(** [v.append]: lists have the method, the other values raise
    [AttributeError] when it is looked up, before any argument is
    evaluated. *)
Definition getattr_append (v : pyval) : outcome (pyval -> pyval) :=
  match v with
  | PList l => Ok (fun x => PList (l ++ [x])%list)
  | _ => Raise AttributeError
  end.

Fixpoint dict_get (label : string) (categories : list (string * string))
  : outcome string :=
  match categories with
  | [] => Raise KeyError
  | (k, v) :: r => if String.eqb k label then Ok v else dict_get label r
  end.

(** Lines 112-117. The inner loop only builds the local [entry] from the
    wrapped text and drops it, so it leaves [changelog] alone. *)
Fixpoint render (categories : list (string * string))
         (d : changelog_dict_t) (changelog : pyval) : outcome pyval :=
  match d with
  | [] => Ok changelog
  | (label, _) :: r =>
      append ← getattr_append changelog;
      heading ← dict_get label categories;
      let changelog := append (PStr ("## " +:+ heading +:+ PyString.nl)) in
      append ← getattr_append changelog;
      let changelog := append (PStr PyString.nl) in
      render categories r changelog
  end.

Definition _generate_changelog (repo : Repository) (log_string : string)
           (categories : list (string * string)) : M pyval :=
  git_log ← query (EGetGitLog repo log_string) (git_log E repo log_string);
  match git_log with
  | [] => mret PNone
  | _ =>
      git_summaries ← lift (summarize_all git_log);
      let changelog_dict := (fun kv => (fst kv, [])) <$> categories in
      changelog_dict ← collect (gh_repo repo) git_summaries changelog_dict;
      lift (render categories changelog_dict
                   (PStr ("# Changelog" +:+ PyString.nl)))
  end.

(** ** [create_github_release] *)

Definition create_github_release (repo : Repository)
           (log_string version_number : string)
           (categories : list (string * string)) : M unit :=
  changelog ← _generate_changelog repo log_string categories;
  let release_name := name repo +:+ " " +:+ version_number in
  call (ECreateGitRelease (gh_repo repo) version_number release_name
                          changelog).

(** ** [finish_release] *)

(** Lines 148-160: the range handed to the log. *)
Definition log_string_of (version_number : string)
           (version_number_pieces : list string) : outcome string :=
  p2 ← Py.index version_number_pieces 2;
  is_patch ← Py.gt (PStr p2) (PInt 0);
  if is_patch : bool then
    p2 ← Py.index version_number_pieces 2;
    previous ← Py.sub (PStr p2) (PInt 1);
    l ← Py.add (PList (PStr <$> take 2 version_number_pieces))
               (PList [previous]);
    older ← Py.join "." l;
    Ok (version_number +:+ "..." +:+ older)
  else
    p0 ← Py.index version_number_pieces 0;
    p1 ← Py.index version_number_pieces 1;
    previous ← Py.sub (PStr p1) (PInt 1);
    l ← Py.add (PStr p0) (PList [previous; PInt 0]);
    older ← Py.join "." l;
    Ok (version_number +:+ "..." +:+ older).

(** [d[key]] on the configuration *)
Definition getitem {A} (o : option A) : outcome A :=
  match o with
  | Some a => Ok a
  | None => Raise KeyError
  end.

(** [os.path.join(working_dir, 'lock')], [working_dir] being what
    [conf.get] returned *)
Definition lock_dir_of (working_dir : option string) : outcome string :=
  match working_dir with
  | Some d => Ok (PyString.os_path_join d "lock")
  | None => Raise TypeError
  end.

(** Lines 139-163: what runs under the lock of the released repository. *)
Definition release_steps (version_number : string) (repo : Repository)
           (repo_config : RepoConfig) (version_number_pieces : list string)
           (branch_number : string) : M (option string) :=
  reno_notes ← (if reno repo_config
                then _run_reno (local_path repo) version_number
                else mret None);
  (if branch_on_release repo_config then
     let branch_name := "stable/" +:+ branch_number in
     repo_branches ← query (EGetBranches (gh_repo repo))
                           (branches E (gh_repo repo));
     p2 ← lift (Py.index version_number_pieces 2);
     if Py.eq (PStr p2) (PInt 0)
        && negb (bool_decide (branch_name ∈ repo_branches))
     then call (ECreateBranch branch_name version_number (BotRepo repo)
                              (Some true))
     else mret tt
   else mret tt) ;;
  log_string ← lift (log_string_of version_number version_number_pieces);
  create_github_release repo log_string version_number
                        (changelog_categories repo_config) ;;
  mret reno_notes.

(** Lines 166-167: what runs under the lock of the meta repository. *)
Definition meta_steps (meta_repo : GhRepo) (repo : Repository)
           (version_number : string) (conf : Conf)
           (reno_notes : option string) : M unit :=
  bump_meta (HostedRepo meta_repo) repo version_number conf reno_notes ;;
  call (ECheckoutMaster repo true).

Definition finish_release (version_number : string) (repo : Repository)
           (conf : Conf) (meta_repo : string) : M unit :=
  lock_dir ← lift (lock_dir_of (working_dir conf));
  _ ← lift (getitem (api_key conf));
  all_repos ← lift (getitem (repos conf));
  repo_config ← lift (getitem (all_repos !! repo_name repo));
  meta_repo ← query (EGetRepo meta_repo) (get_repo E meta_repo);
  let version_number_pieces := PyString.split "." version_number in
  let branch_number := PyString.join "." (take 2 version_number_pieces) in
  reno_notes ← with_lock (PyString.os_path_join lock_dir (name repo))
                 (release_steps version_number repo repo_config
                                version_number_pieces branch_number);
  with_lock (PyString.os_path_join lock_dir (gh_name meta_repo))
    (meta_steps meta_repo repo version_number conf reno_notes).

End Release.

(** ** A release of qiskit-terra, used for the concrete runs *)

Module Scenario.

Definition terra_gh : GhRepo :=
  {| gh_full_name := "Qiskit/qiskit-terra"; gh_name := "qiskit-terra" |}.

Definition meta_gh : GhRepo :=
  {| gh_full_name := "Qiskit/qiskit"; gh_name := "qiskit" |}.

Definition terra : Repository :=
  {| repo_name := "Qiskit/qiskit-terra"; name := "qiskit-terra";
     local_path := "/work/qiskit-terra"; gh_repo := terra_gh |}.

Definition meta : Repository :=
  {| repo_name := "Qiskit/qiskit"; name := "qiskit";
     local_path := "/work/qiskit"; gh_repo := meta_gh |}.

Definition categories : list (string * string) :=
  [("Changelog: Bugfix", "Fixed")].

Definition conf : Conf :=
  {| working_dir := Some "/work";
     api_key := Some "token";
     repos := Some {[ "Qiskit/qiskit-terra" :=
                        {| reno := true; branch_on_release := true;
                           changelog_categories := categories |} ]} |}.

(** Every collaborator answers and none fails: [reno] prints its report,
    the latest tag is 0.5.0, the hosted repository has the branch
    [master] only. *)
Definition quiet (pulls : list Pull) (history : list string) : env :=
  {| process := fun _ _ => Exited 0 "Release Notes";
     latest_tag := fun _ => Ok "0.5.0";
     open_pulls := fun _ => Ok pulls;
     branches := fun _ => Ok ["master"];
     git_log := fun _ _ => Ok history;
     pull_labels := fun _ _ => Ok ["Changelog: Bugfix"];
     get_repo := fun _ => Ok meta_gh;
     re_match := fun _ _ => Ok None;
     int_of_text := fun _ => None;
     fails := fun _ => None |}.

(** The same, but the [reno] executable cannot be started. *)
Definition reno_missing : env :=
  {| process := fun _ _ => SpawnFailed (OtherError "FileNotFoundError");
     latest_tag := fun _ => Ok "0.5.0";
     open_pulls := fun _ => Ok [];
     branches := fun _ => Ok ["master"];
     git_log := fun _ _ => Ok [];
     pull_labels := fun _ _ => Ok [];
     get_repo := fun _ => Ok meta_gh;
     re_match := fun _ _ => Ok None;
     int_of_text := fun _ => None;
     fails := fun _ => None |}.

(** The same as [quiet], but looking up a pull request fails. *)
Definition api_down (history : list string) : env :=
  {| process := fun _ _ => Exited 0 "Release Notes";
     latest_tag := fun _ => Ok "0.5.0";
     open_pulls := fun _ => Ok [];
     branches := fun _ => Ok ["master"];
     git_log := fun _ _ => Ok history;
     pull_labels := fun _ _ => Raise (OtherError "GithubException");
     get_repo := fun _ => Ok meta_gh;
     re_match := fun _ _ => Ok None;
     int_of_text := fun _ => None;
     fails := fun _ => None |}.

Definition bump_pull : Pull := {| title := "Bump Meta"; head := "bump_meta" |}.

(** An open "Bump Meta" pull request made from another branch. *)
Definition stray_pull : Pull := {| title := "Bump Meta"; head := "update-terra" |}.

Definition setup_py : string := "/work/qiskit-terra/setup.py".

(** A manifest that already carries the pin and the version a bump for
    qiskit-terra 0.9.0 would write. *)
Definition bumped_manifest : string :=
  "qiskit-terra==0.9.0" +:+ PyString.nl +:+ "version=0.6.0" +:+ PyString.nl.

End Scenario.

(** ** Observations on runs *)

(** [w'] continues [w]: it has the events of [w], then new ones that all
    satisfy [P], and holds the same locks. *)
Definition extends (P : event -> bool) (w w' : world) : Prop :=
  exists new : list event,
    trace w' = (new ++ trace w)%list /\ forallb P new = true /\
    held w' = held w.

(** Whatever the world, the computation emits events satisfying [P] only
    and gives back every lock it takes. *)
Definition emits {A} (P : event -> bool) (m : M A) : Prop :=
  forall w, extends P w (snd (m w)).

Definition always_raises {A} (m : M A) : Prop :=
  forall w, exists e, fst (m w) = Raise e.

Definition cuts_branch (e : event) : bool :=
  match e with
  | ECreateBranch _ _ _ _ => true
  | _ => false
  end.

Definition opens_proposal (e : event) : bool :=
  match e with
  | ECreatePull _ _ _ _ _ => true
  | _ => false
  end.

(** The events of [_run_reno], of the changelog and the hosted release,
    and of [bump_meta] short of the two that create something. *)
Definition reno_event (e : event) : bool :=
  match e with
  | ERunProcess _ _ | ELogException _ => true
  | _ => false
  end.

Definition changelog_event (e : event) : bool :=
  match e with
  | EGetGitLog _ _ | EGetPull _ _ | ECreateGitRelease _ _ _ _ => true
  | _ => false
  end.

Definition bump_event (e : event) : bool :=
  match e with
  | EGetLatestTag _ | EGetPulls _ | ECheckoutRef _ | EOpen _ _ | EClose _
  | ECommitAll _ _ => true
  | _ => false
  end.

(** Whether the meta repository shows an open pull request titled
    "Bump Meta". *)
Definition bump_proposal_open (E : env) (meta_repo : repo_obj) : bool :=
  match attr_gh_repo meta_repo with
  | Ok gh =>
      match open_pulls E gh with
      | Ok pulls => existsb (fun pull => String.eqb (title pull) "Bump Meta") pulls
      | Raise _ => false
      end
  | Raise _ => false
  end.

Definition is_lock_event (e : event) : bool :=
  match e with
  | EAcquire _ | ERelease _ => true
  | _ => false
  end.

(** A run edits on the right branch when every file is opened only after
    a checkout and every checkout is of the branch [bump_meta].
    [edit_state tr] is whether the trace [tr] (newest event first) has
    checked out by its end, [None] when it broke the rule. *)
Definition edit_step (checked_out : bool) (e : event) : option bool :=
  match e with
  | ECheckoutRef ref => if String.eqb ref "bump_meta" then Some true else None
  | EOpen _ _ => if checked_out then Some true else None
  | _ => Some checked_out
  end.

Fixpoint edit_state (tr : list event) : option bool :=
  match tr with
  | [] => Some false
  | e :: older =>
      match edit_state older with
      | Some checked_out => edit_step checked_out e
      | None => None
      end
  end.

Definition checkout_precedes_edit (tr : list event) : bool :=
  match edit_state tr with
  | Some _ => true
  | None => false
  end.

Definition at_state (checked_out : bool) (tr : list event) : Prop :=
  edit_state tr = Some checked_out.

Definition in_order (tr : list event) : Prop :=
  checkout_precedes_edit tr = true.

Definition is_checkout (e : event) : bool :=
  match e with
  | ECheckoutRef _ => true
  | _ => false
  end.

Definition is_open (e : event) : bool :=
  match e with
  | EOpen _ _ => true
  | _ => false
  end.

(** [triple I m J K]: from a world whose trace satisfies [I], the trace
    satisfies [J] when [m] returns and [K] when it raises. *)
Definition triple {A} (I : list event -> Prop) (m : M A)
           (J K : list event -> Prop) : Prop :=
  forall w, I (trace w) ->
            match m w with
            | (Ok _, w') => J (trace w')
            | (Raise _, w') => K (trace w')
            end.

(** The environment in which every open pull request has the head branch
    [f] gives it, everything else being the same. *)
Definition with_heads (f : Pull -> string) (E : env) : env :=
  {| process := process E;
     latest_tag := latest_tag E;
     open_pulls := fun gh =>
       match open_pulls E gh with
       | Ok pulls =>
           Ok ((fun pull => {| title := title pull; head := f pull |}) <$> pulls)
       | Raise e => Raise e
       end;
     branches := branches E;
     git_log := git_log E;
     pull_labels := pull_labels E;
     get_repo := get_repo E;
     re_match := re_match E;
     int_of_text := int_of_text E;
     fails := fails E |}.

(** *** The two locks of [finish_release] *)

(** What may happen under the lock of the released repository, and under
    the lock of the meta repository. *)
Definition release_event (e : event) : bool :=
  reno_event e || changelog_event e ||
  match e with
  | EGetBranches _ | ECreateBranch _ _ (BotRepo _) _ => true
  | _ => false
  end.

Definition meta_event (e : event) : bool :=
  bump_event e ||
  match e with
  | ECreateBranch _ _ (HostedRepo _) _ | ECreatePull _ _ _ _ _
  | ECheckoutMaster _ _ => true
  | _ => false
  end.

Inductive phase : Type :=
| Before        (* no lock taken yet *)
| InRelease     (* the lock of the released repository is held *)
| Between       (* it was given back, the second lock is not taken *)
| InMeta        (* the lock of the meta repository is held *)
| After.        (* both were taken and given back *)

(** One event of a run that keeps the discipline: [release_lock] is taken
    first and given back before [meta_lock] is taken; the steps of the
    release happen under the first, the bump and the final checkout under
    the second, and outside the locks only the meta repository is looked
    up. *)
Definition lock_step (release_lock meta_lock : string) (p : phase) (e : event)
  : option phase :=
  match p, e with
  | Before, EGetRepo _ => Some Before
  | Before, EAcquire l => if String.eqb l release_lock then Some InRelease else None
  | InRelease, ERelease l => if String.eqb l release_lock then Some Between else None
  | InRelease, _ => if release_event e then Some InRelease else None
  | Between, EAcquire l => if String.eqb l meta_lock then Some InMeta else None
  | InMeta, ERelease l => if String.eqb l meta_lock then Some After else None
  | InMeta, _ => if meta_event e then Some InMeta else None
  | _, _ => None
  end.

(** The phase a trace (newest event first) leads to from [start]. *)
Fixpoint phase_after (release_lock meta_lock : string) (start : phase)
         (tr : list event) : option phase :=
  match tr with
  | [] => Some start
  | e :: older =>
      match phase_after release_lock meta_lock start older with
      | Some p => lock_step release_lock meta_lock p e
      | None => None
      end
  end.

Definition no_lock_held (p : phase) : bool :=
  match p with
  | Before | Between | After => true
  | InRelease | InMeta => false
  end.

(** The paths of the two lock files of a run; a path that the run cannot
    form, and so never locks, is left empty. *)
Definition release_lock_path (conf : Conf) (repo : Repository) : string :=
  match lock_dir_of (working_dir conf) with
  | Ok lock_dir => PyString.os_path_join lock_dir (name repo)
  | Raise _ => EmptyString
  end.

Definition meta_lock_path (E : env) (conf : Conf) (meta_repo : string)
  : string :=
  match lock_dir_of (working_dir conf), get_repo E meta_repo with
  | Ok lock_dir, Ok meta => PyString.os_path_join lock_dir (gh_name meta)
  | _, _ => EmptyString
  end.

Definition lock_discipline (release_lock meta_lock : string)
           (tr : list event) : bool :=
  match phase_after release_lock meta_lock Before tr with
  | Some p => no_lock_held p
  | None => false
  end.


(** The text holds a parenthesised group the pattern can extract: an open
    parenthesis and, later on the same line, a close parenthesis, all of
    it on the first line. *)
Definition no_newline (l : list ascii) : Prop :=
  forallb (fun c => negb (Re.is_newline c)) l = true.

Definition has_pr_group (text : list ascii) : Prop :=
  exists a b c : list ascii,
    text = (a ++ "("%char :: b ++ ")"%char :: c)%list /\
    no_newline a /\ no_newline b.

(** ** Further observations *)

Definition is_commit (e : event) : bool :=
  match e with
  | ECommitAll _ _ => true
  | _ => false
  end.

Definition runs_process (e : event) : bool :=
  match e with
  | ERunProcess _ _ => true
  | _ => false
  end.

Definition lists_branches (e : event) : bool :=
  match e with
  | EGetBranches _ => true
  | _ => false
  end.

Definition is_acquire (e : event) : bool :=
  match e with
  | EAcquire _ => true
  | _ => false
  end.

Definition lists_pulls (e : event) : bool :=
  match e with
  | EGetPulls _ => true
  | _ => false
  end.

(** A non-empty text of the digits 0 to 9, of at most 4300 of them (what
    every interpreter converts), and the number it writes. *)
Definition is_decimal (s : string) : bool :=
  match s with
  | EmptyString => false
  | _ => forallb Py.is_digit (list_ascii_of_string s)
         && (String.length s <=? 4300)%nat
  end.

Fixpoint decimal_go (acc : Z) (s : string) : Z :=
  match s with
  | EmptyString => acc
  | String c r => decimal_go (10 * acc + (Z.of_N (N_of_ascii c) - 48)) r
  end.

Definition decimal_value (s : string) : Z := decimal_go 0 s.

(** The events a run of [finish_release] is seen to reach. *)
Definition reached_event (e : event) : bool :=
  match e with
  | EGetRepo _ | EAcquire _ | ERelease _ | ERunProcess _ _ | ELogException _
  | EGetBranches _ => true
  | _ => false
  end.

(** The events of the changelog short of the release itself. *)
Definition lookup_event (e : event) : bool :=
  match e with
  | EGetGitLog _ _ | EGetPull _ _ => true
  | _ => false
  end.

(** [conf['repos'][repo.repo_name]], [None] when either key is absent. *)
Definition repo_config_of (conf : Conf) (repo : Repository)
  : option RepoConfig :=
  match repos conf with
  | Some all_repos => all_repos !! repo_name repo
  | None => None
  end.

(** The world after the events [evs] happened in that order. *)
Definition log_all (evs : list event) (w : world) : world :=
  foldl (fun w e => log e w) w evs.

(** The numbers [int] reads off the second components of the entries, in
    order. *)
Fixpoint pr_numbers (E : env) (entries : list (string * string))
  : outcome (list Z) :=
  match entries with
  | [] => Ok []
  | (_, pr) :: r =>
      number ← builtin_int E pr;
      numbers ← pr_numbers E r;
      Ok (number :: numbers)
  end.

(** [d[label]], [None] when [label] is not a key. *)
Fixpoint dict_lookup (label : string) (d : changelog_dict_t)
  : option (list string) :=
  match d with
  | [] => None
  | (k, v) :: r => if String.eqb k label then Some v else dict_lookup label r
  end.

(** What [changelog] is bound to at line 111. *)
Definition bare_heading : pyval := PStr ("# Changelog" +:+ PyString.nl).

Definition no_char (c : ascii) (s : string) : Prop :=
  PyString.mem_char c s = false.

Definition newline : ascii := ascii_of_nat 10.

(** The computation leaves alone every file whose path [may_write]
    rejects. *)
Definition keeps_files {A} (may_write : string -> bool) (m : M A) : Prop :=
  forall (w : world) (path : string),
    may_write path = false -> files (snd (m w)) !! path = files w !! path.

Module Scenario2.

(** A configuration with the release notes and the stable branch both
    switched off. *)
Definition plain_conf : Conf :=
  {| working_dir := Some "/work";
     api_key := Some "token";
     repos := Some {[ "Qiskit/qiskit-terra" :=
                        {| reno := false; branch_on_release := false;
                           changelog_categories := Scenario.categories |} ]} |}.

(** A configuration that knows no repository. *)
Definition empty_conf : Conf :=
  {| working_dir := Some "/work"; api_key := Some "token"; repos := Some ∅ |}.

Definition history : list string :=
  ["abc1234 Fix the frobnicator (#12)"; "def5678 Update the docs (#7)"].

End Scenario2.

(** * Properties *)

(** ** Running the monad *)

Lemma bind_run {A B} (m : M A) (f : A -> M B) (w : world) :
  (m ≫= f) w =
  match m w with
  | (Ok a, w') => f a w'
  | (Raise e, w') => (Raise e, w')
  end.
Proof. reflexivity. Qed.

Lemma lift_run {A} (o : outcome A) (w : world) : lift o w = (o, w).
Proof. reflexivity. Qed.

Lemma ret_run {A} (a : A) (w : world) : (mret a : M A) w = (Ok a, w).
Proof. reflexivity. Qed.

Lemma bind_raises {A B} (m : M A) (f : A -> M B) (w w' : world) (e : exn) :
  m w = (Raise e, w') -> (m ≫= f) w = (Raise e, w').
Proof. intros H. rewrite bind_run, H. reflexivity. Qed.

(** ** The version of the meta package (lines 41-50) *)

Lemma str_never_equals_int (s : string) (z : Z) : Py.eq (PStr s) (PInt z) = false.
Proof. reflexivity. Qed.

Lemma str_plus_int_raises (s : string) (z : Z) :
  Py.add (PStr s) (PInt z) = Raise TypeError.
Proof. reflexivity. Qed.

Lemma new_meta_version_raises (vp mp : list string) :
  new_meta_version vp mp = Raise IndexError \/
  new_meta_version vp mp = Raise TypeError.
Proof.
  unfold new_meta_version.
  destruct vp as [|v0 [|v1 [|v2 vp]]]; cbn; auto.
  destruct mp as [|m0 [|m1 [|m2 mp]]]; cbn; auto.
Qed.

Lemma new_meta_version_three_pieces (v0 v1 v2 m0 m1 m2 : string)
      (vp mp : list string) :
  new_meta_version (v0 :: v1 :: v2 :: vp) (m0 :: m1 :: m2 :: mp)
  = Raise TypeError.
Proof. reflexivity. Qed.

Lemma bump_meta_raises (E : env) (meta_repo : repo_obj) (repo : Repository)
      (version_number : string) (conf : Conf) (reno : option string)
      (w : world) :
  exists e, fst (bump_meta E meta_repo repo version_number conf reno w) = Raise e.
Proof.
  unfold bump_meta. rewrite bind_run. unfold query.
  destruct (latest_tag E repo) as [tag|e]; [|eauto].
  rewrite bind_run, lift_run.
  destruct (new_meta_version_raises (PyString.split "." version_number)
              (PyString.split "." tag)) as [-> | ->]; eauto.
Qed.

(** Every run of [bump_meta] is the same: the latest tag is asked for and
    the call raises, before the open pull requests are listed. *)
Lemma bump_meta_run (E : env) (meta_repo : repo_obj) (repo : Repository)
      (version_number : string) (conf : Conf) (reno : option string)
      (w : world) :
  exists e, bump_meta E meta_repo repo version_number conf reno w
            = (Raise e, log (EGetLatestTag repo) w).
Proof.
  unfold bump_meta. rewrite bind_run. unfold query.
  destruct (latest_tag E repo) as [tag|e]; [|eauto].
  rewrite bind_run, lift_run.
  destruct (new_meta_version_raises (PyString.split "." version_number)
              (PyString.split "." tag)) as [-> | ->]; eauto.
Qed.

(** C1. The code never computes a next meta version: the pieces of both
    versions are strings, so the test for a minor release
    ([version_number_pieces[2] == 0]) is false for every released version
    and the patch bump ([meta_version_pieces[2] + 1]) adds an integer to a
    string. Whatever the two versions are, the computation ends in
    [IndexError] or [TypeError]; for the release 1.2.0 over the meta
    version 0.5.0, where the claim expects 0.6.0, it is [TypeError], and so
    every call of [bump_meta] raises. *)
Theorem C1_next_meta_version_is_never_computed :
  (forall vp mp : list string,
      new_meta_version vp mp = Raise IndexError \/
      new_meta_version vp mp = Raise TypeError) /\
  new_meta_version (PyString.split "." "1.2.0") (PyString.split "." "0.5.0")
  = Raise TypeError /\
  new_meta_version (PyString.split "." "1.2.1") (PyString.split "." "0.6.0")
  = Raise TypeError /\
  (forall E meta_repo repo version_number conf reno w,
      exists e,
        fst (bump_meta E meta_repo repo version_number conf reno w) = Raise e).
Proof.
  split; [exact new_meta_version_raises|].
  split; [reflexivity|]. split; [reflexivity|].
  intros. apply bump_meta_raises.
Qed.

(** ** What a computation emits *)

Lemma extends_refl (P : event -> bool) (w : world) : extends P w w.
Proof. exists []. auto. Qed.

Lemma extends_trans (P : event -> bool) (w1 w2 w3 : world) :
  extends P w1 w2 -> extends P w2 w3 -> extends P w1 w3.
Proof.
  intros (n1 & T1 & F1 & H1) (n2 & T2 & F2 & H2).
  exists (n2 ++ n1)%list. rewrite T2, T1, H2, H1, forallb_app, F1, F2.
  rewrite <- app_assoc. auto.
Qed.

Lemma extends_log (P : event -> bool) (e : event) (w : world) :
  P e = true -> extends P w (log e w).
Proof. intros H. exists [e]. cbn. rewrite H. auto. Qed.

Lemma extends_weaken (P Q : event -> bool) (w w' : world) :
  (forall e, P e = true -> Q e = true) -> extends P w w' -> extends Q w w'.
Proof.
  intros PQ (n & T & F & H). exists n. repeat split; auto.
  rewrite forallb_forall in *. auto.
Qed.

Lemma emits_ret {A} (P : event -> bool) (a : A) : emits P (mret a : M A).
Proof. intros w. apply extends_refl. Qed.

Lemma emits_lift {A} (P : event -> bool) (o : outcome A) : emits P (lift o).
Proof. intros w. apply extends_refl. Qed.

Lemma emits_bind {A B} (P : event -> bool) (m : M A) (f : A -> M B) :
  emits P m -> (forall a, emits P (f a)) -> emits P (m ≫= f).
Proof.
  intros Hm Hf w. rewrite bind_run. specialize (Hm w).
  destruct (m w) as [[a|e] w']; cbn in *; [|exact Hm].
  eapply extends_trans; [exact Hm | apply Hf].
Qed.

Lemma emits_bind_raises {A B} (P : event -> bool) (m : M A) (f : A -> M B) :
  emits P m -> always_raises m -> emits P (m ≫= f).
Proof.
  intros Hm Hr w. rewrite bind_run. specialize (Hm w).
  destruct (Hr w) as [e He].
  destruct (m w) as [[a|e'] w']; cbn in *; [discriminate | exact Hm].
Qed.

Lemma emits_call (E : env) (P : event -> bool) (e : event) :
  P e = true -> emits P (call E e).
Proof.
  intros H w. unfold call. destruct (fails E e); cbn; apply extends_log, H.
Qed.

Lemma emits_query {A} (P : event -> bool) (e : event) (o : outcome A) :
  P e = true -> emits P (query e o).
Proof. intros H w. cbn. apply extends_log, H. Qed.

Lemma emits_try_except {A} (P : event -> bool) (m h : M A)
      (handles : exn -> bool) :
  emits P m -> emits P h -> emits P (try_except m handles h).
Proof.
  intros Hm Hh w. unfold try_except. specialize (Hm w).
  destruct (m w) as [[a|e] w']; cbn in *; [exact Hm|].
  destruct (handles e); cbn; [|exact Hm].
  eapply extends_trans; [exact Hm | apply Hh].
Qed.

Lemma emits_for_each {A} (P : event -> bool) (l : list A) (f : A -> M unit) :
  (forall a, emits P (f a)) -> emits P (for_each l f).
Proof.
  intros Hf. induction l as [|a l IH]; cbn.
  - apply emits_ret.
  - apply emits_bind; auto.
Qed.

Lemma emits_subprocess_run (E : env) (P : event -> bool)
      (args : list string) (cwd : string) (check : bool) :
  P (ERunProcess args cwd) = true -> emits P (subprocess_run E args cwd check).
Proof.
  intros H w. unfold subprocess_run.
  destruct (process E args cwd) as [code out|e]; [destruct (_ && _)|];
    cbn; apply extends_log, H.
Qed.

Lemma emits_file_lines (P : event -> bool) (fd : string * string) :
  emits P (file_lines fd).
Proof.
  intros w. unfold file_lines. destruct fd as [path mode].
  destruct (_ || _); apply extends_refl.
Qed.

Lemma extends_write_file (P : event -> bool) (path content : string)
      (w : world) :
  extends P w (write_file path content w).
Proof. exists []. auto. Qed.

Lemma emits_with_open {A} (E : env) (P : event -> bool) (path mode : string)
      (body : string * string -> M A) :
  P (EOpen path mode) = true -> P (EClose path) = true ->
  (forall fd, emits P (body fd)) -> emits P (with_open E path mode body).
Proof.
  intros Ho Hc Hb w. unfold with_open.
  destruct (fails E (EOpen path mode)); cbn; [apply extends_log, Ho|].
  set (w2 := if String.eqb mode "w" then _ else _).
  assert (extends P w w2) as H2.
  { subst w2. destruct (String.eqb mode "w").
    - eapply extends_trans; [apply extends_log, Ho | apply extends_write_file].
    - apply extends_log, Ho. }
  specialize (Hb (path, mode) w2). destruct (body (path, mode) w2) as [r w3].
  cbn in *. eapply extends_trans; [exact H2|].
  eapply extends_trans; [exact Hb | apply extends_log, Hc].
Qed.

Lemma remove_first_head (path : string) (l : list string) :
  remove_first path (path :: l) = l.
Proof. cbn. rewrite String.eqb_refl. reflexivity. Qed.

Lemma emits_with_lock {A} (E : env) (P : event -> bool) (path : string)
      (body : M A) :
  P (EAcquire path) = true -> P (ERelease path) = true ->
  emits P body -> emits P (with_lock E path body).
Proof.
  intros Ha Hr Hb w. unfold with_lock.
  destruct (fails E (EAcquire path)); cbn; [apply extends_refl|].
  specialize (Hb (acquire path w)).
  destruct (body (acquire path w)) as [r w']. cbn in *.
  destruct Hb as (n & T & F & H).
  exists (ERelease path :: n ++ [EAcquire path])%list. cbn.
  rewrite T, H, Hr, forallb_app, F. cbn. rewrite Ha, String.eqb_refl.
  rewrite <- app_assoc. auto.
Qed.

Lemma with_lock_raises {A} (E : env) (path : string) (body : M A) :
  always_raises body -> always_raises (with_lock E path body).
Proof.
  intros Hb w. unfold with_lock.
  destruct (fails E (EAcquire path)); cbn; [eauto|].
  destruct (Hb (acquire path w)) as [e He].
  destruct (body (acquire path w)) as [r w']. cbn in *. eauto.
Qed.

Lemma bind_always_raises {A B} (m : M A) (f : A -> M B) :
  (forall a, always_raises (f a)) -> always_raises (m ≫= f).
Proof.
  intros Hf w. rewrite bind_run. destruct (m w) as [[a|e] w']; cbn; [|eauto].
  apply Hf.
Qed.

Lemma bind_always_raises_l {A B} (m : M A) (f : A -> M B) :
  always_raises m -> always_raises (m ≫= f).
Proof.
  intros Hm w. rewrite bind_run. destruct (Hm w) as [e He].
  destruct (m w) as [[a|e'] w']; cbn in *; [discriminate | eauto].
Qed.

Lemma emits_filter {A} (P Q : event -> bool) (m : M A) (w : world) :
  (forall e, P e = true -> Q e = false) -> emits P m ->
  List.filter Q (trace (snd (m w))) = List.filter Q (trace w).
Proof.
  intros PQ Hm. destruct (Hm w) as (n & T & F & _). rewrite T.
  rewrite List.filter_app.
  replace (List.filter Q n) with (@nil event); [reflexivity|].
  symmetry. clear T. induction n as [|e n IH]; cbn in *; [reflexivity|].
  apply andb_true_iff in F as [Fe Fn]. rewrite (PQ e Fe). auto.
Qed.

Lemma emits_weaken {A} (P Q : event -> bool) (m : M A) :
  (forall e, P e = true -> Q e = true) -> emits P m -> emits Q m.
Proof. intros PQ Hm w. eapply extends_weaken; [exact PQ | apply Hm]. Qed.

(** The same for an answer that is known: the continuation is entered
    only with the value the answer carries. *)
Lemma emits_bind_lift {A B} (P : event -> bool) (o : outcome A)
      (f : A -> M B) :
  (forall a, o = Ok a -> emits P (f a)) -> emits P (lift o ≫= f).
Proof.
  intros Hf w. rewrite bind_run, lift_run.
  destruct o as [a|e]; [apply Hf; reflexivity | apply extends_refl].
Qed.

Lemma emits_bind_ret {A B} (P : event -> bool) (a : A) (f : A -> M B) :
  emits P (f a) -> emits P (mret a ≫= f).
Proof. intros Hf w. rewrite bind_run, ret_run. apply Hf. Qed.

Lemma emits_bind_query {A B} (P : event -> bool) (e : event) (o : outcome A)
      (f : A -> M B) :
  P e = true -> (forall a, o = Ok a -> emits P (f a)) ->
  emits P (query e o ≫= f).
Proof.
  intros He Hf w. rewrite bind_run. unfold query.
  destruct o as [a|x]; [|apply extends_log, He].
  eapply extends_trans; [apply extends_log, He | apply Hf; reflexivity].
Qed.

Create HintDb emits.

#[local] Hint Resolve emits_ret emits_lift emits_bind emits_call emits_query
  emits_try_except emits_for_each emits_subprocess_run emits_file_lines
  emits_with_open emits_with_lock : emits.

Ltac emits_steps :=
  repeat first
    [ apply emits_ret | apply emits_lift
    | apply emits_bind; [|intros ?]
    | apply emits_call | apply emits_query | apply emits_subprocess_run
    | apply emits_try_except | apply emits_for_each; intros ?
    | apply emits_file_lines
    | apply emits_with_open; [| |intros ?] ].

Section Emitted.

Variable E : env.
Variable P : event -> bool.

Lemma emits_run_reno (local_path version_number : string) :
  (forall e, reno_event e = true -> P e = true) ->
  emits P (_run_reno E local_path version_number).
Proof. intros HP. unfold _run_reno. emits_steps; apply HP; reflexivity. Qed.

Lemma emits_edit_setup_py (path package_name requirements_str
                           new_version : string) :
  P (EOpen path "w") = true -> P (EClose path) = true ->
  emits P (edit_setup_py E path package_name requirements_str new_version).
Proof. intros Ho Hc. unfold edit_setup_py. emits_steps; assumption. Qed.

Lemma emits_propose_bump (meta_repo : repo_obj) (repo : Repository)
      (version_number new_version : string) :
  (forall e, bump_event e = true -> P e = true) ->
  P (ECreateBranch "bump_meta" "origin/master" meta_repo None) = true ->
  (forall gh body,
      P (ECreatePull gh "Bump Meta" "master" "bump_meta" body) = true) ->
  emits P (propose_bump E meta_repo repo version_number new_version).
Proof.
  intros HP Hbranch Hpull. unfold propose_bump.
  apply emits_bind; [apply emits_lift | intros package_name].
  apply emits_bind; [apply emits_lift | intros gh].
  apply emits_bind; [apply emits_query, HP; reflexivity | intros pulls].
  apply emits_bind.
  { destruct (find_pull _ pulls); emits_steps. exact Hbranch. }
  intros bump_pr.
  apply emits_bind; [apply emits_call, HP; reflexivity | intros _].
  apply emits_bind;
    [apply emits_edit_setup_py; apply HP; reflexivity | intros _].
  apply emits_bind; [apply emits_call, HP; reflexivity | intros _].
  destruct bump_pr; emits_steps. apply Hpull.
Qed.

Lemma find_pull_open (pulls : list Pull) :
  existsb (fun pull => String.eqb (title pull) "Bump Meta") pulls = true ->
  exists pull, find_pull "Bump Meta" pulls = Some pull.
Proof.
  unfold find_pull. induction pulls as [|p pulls IH]; cbn; [discriminate|].
  destruct (String.eqb (title p) "Bump Meta"); cbn; eauto.
Qed.

(** With an open "Bump Meta" pull request the two creating calls are not
    on the path at all. *)
Lemma emits_propose_bump_reuse (meta_repo : repo_obj) (repo : Repository)
      (version_number new_version : string) :
  (forall e, bump_event e = true -> P e = true) ->
  bump_proposal_open E meta_repo = true ->
  emits P (propose_bump E meta_repo repo version_number new_version).
Proof.
  intros HP Hopen. unfold propose_bump, bump_proposal_open in *.
  apply emits_bind; [apply emits_lift | intros package_name].
  apply emits_bind_lift. intros gh Hgh. rewrite Hgh in Hopen.
  apply emits_bind_query; [apply HP; reflexivity|].
  intros pulls Hpulls. rewrite Hpulls in Hopen.
  destruct (find_pull_open pulls Hopen) as [pull ->].
  apply emits_bind_ret.
  apply emits_bind; [apply emits_call, HP; reflexivity | intros _].
  apply emits_bind;
    [apply emits_edit_setup_py; apply HP; reflexivity | intros _].
  apply emits_bind; [apply emits_call, HP; reflexivity | intros _].
  apply emits_ret.
Qed.

Lemma emits_bump_meta (meta_repo : repo_obj) (repo : Repository)
      (version_number : string) (conf : Conf) (reno : option string) :
  (forall e, bump_event e = true -> P e = true) ->
  P (ECreateBranch "bump_meta" "origin/master" meta_repo None) = true ->
  (forall gh body,
      P (ECreatePull gh "Bump Meta" "master" "bump_meta" body) = true) ->
  emits P (bump_meta E meta_repo repo version_number conf reno).
Proof.
  intros HP Hbranch Hpull. unfold bump_meta.
  apply emits_bind; [apply emits_query, HP; reflexivity | intros tag].
  apply emits_bind; [apply emits_lift | intros new_version].
  apply emits_propose_bump; assumption.
Qed.

Lemma emits_collect (gh : GhRepo) (git_summaries : list (string * string))
      (d : changelog_dict_t) :
  (forall e, changelog_event e = true -> P e = true) ->
  emits P (collect E gh git_summaries d).
Proof.
  intros HP. revert d.
  induction git_summaries as [|[summary pr] r IH]; intros d; cbn.
  - apply emits_ret.
  - apply emits_bind; [apply emits_lift | intros number].
    apply emits_bind; [apply emits_query, HP; reflexivity | intros labels].
    apply IH.
Qed.

Lemma emits_generate_changelog (repo : Repository) (log_string : string)
      (categories : list (string * string)) :
  (forall e, changelog_event e = true -> P e = true) ->
  emits P (_generate_changelog E repo log_string categories).
Proof.
  intros HP. unfold _generate_changelog.
  apply emits_bind; [apply emits_query, HP; reflexivity | intros history].
  destruct history; [apply emits_ret|].
  apply emits_bind; [apply emits_lift | intros git_summaries].
  apply emits_bind; [apply emits_collect, HP | intros d].
  apply emits_lift.
Qed.

Lemma emits_create_github_release (repo : Repository)
      (log_string version_number : string)
      (categories : list (string * string)) :
  (forall e, changelog_event e = true -> P e = true) ->
  emits P (create_github_release E repo log_string version_number categories).
Proof.
  intros HP. unfold create_github_release.
  apply emits_bind; [apply emits_generate_changelog, HP | intros changelog].
  apply emits_call, HP. reflexivity.
Qed.

(** The steps under the first lock. The test for a minor release compares
    a string with [0] and is false, so the call that cuts the branch is
    not on the path. *)
Lemma emits_release_steps (version_number : string) (repo : Repository)
      (repo_config : RepoConfig) (pieces : list string)
      (branch_number : string) :
  (forall e, reno_event e = true -> P e = true) ->
  (forall e, changelog_event e = true -> P e = true) ->
  (forall gh, P (EGetBranches gh) = true) ->
  emits P (release_steps E version_number repo repo_config pieces
                         branch_number).
Proof.
  intros Hreno Hlog Hbranches. unfold release_steps.
  apply emits_bind.
  { destruct (reno repo_config);
      [apply emits_run_reno, Hreno | apply emits_ret]. }
  intros reno_notes. apply emits_bind.
  { destruct (branch_on_release repo_config); [|apply emits_ret].
    apply emits_bind; [apply emits_query, Hbranches | intros repo_branches].
    apply emits_bind; [apply emits_lift | intros p2].
    rewrite str_never_equals_int. apply emits_ret. }
  intros _. apply emits_bind; [apply emits_lift | intros log_string].
  apply emits_bind; [apply emits_create_github_release, Hlog | intros _].
  apply emits_ret.
Qed.

End Emitted.

(** ** The log range and the stable branch (lines 141-160) *)

Lemma str_int_unordered (s : string) (z : Z) :
  Py.gt (PStr s) (PInt z) = Raise TypeError.
Proof. reflexivity. Qed.

Lemma log_string_of_raises (version_number : string) (pieces : list string) :
  log_string_of version_number pieces = Raise IndexError \/
  log_string_of version_number pieces = Raise TypeError.
Proof.
  unfold log_string_of.
  destruct pieces as [|p0 [|p1 [|p2 pieces]]]; cbn; auto.
Qed.

Lemma release_steps_raises (E : env) (version_number : string)
      (repo : Repository) (repo_config : RepoConfig) (pieces : list string)
      (branch_number : string) :
  always_raises (release_steps E version_number repo repo_config pieces
                               branch_number).
Proof.
  unfold release_steps.
  apply bind_always_raises. intros reno_notes.
  apply bind_always_raises. intros _.
  apply bind_always_raises_l. intros w. rewrite lift_run. cbn.
  destruct (log_string_of_raises version_number pieces) as [-> | ->]; eauto.
Qed.

Lemma finish_release_raises (E : env) (version_number : string)
      (repo : Repository) (conf : Conf) (meta_repo : string) :
  always_raises (finish_release E version_number repo conf meta_repo).
Proof.
  unfold finish_release.
  do 5 (apply bind_always_raises; intros ?).
  apply bind_always_raises_l, with_lock_raises, release_steps_raises.
Qed.

(** C2. The code computes no log range: [version_number_pieces[2] > 0]
    orders a string against an integer, which raises [TypeError] for every
    version with three components ([IndexError] with fewer), in the patch
    case and in the minor case alike, so [finish_release] raises in every
    run before the release is published. For 1.2.1 the claim expects the
    range from 1.2.1 down to 1.2.0, for 1.2.0 the range from 1.2.0 down to
    1.1.0. *)
Theorem C2_log_range_is_never_computed :
  (forall version_number pieces,
      log_string_of version_number pieces = Raise IndexError \/
      log_string_of version_number pieces = Raise TypeError) /\
  log_string_of "1.2.1" (PyString.split "." "1.2.1") = Raise TypeError /\
  log_string_of "1.2.0" (PyString.split "." "1.2.0") = Raise TypeError /\
  (forall E version_number repo conf meta_repo w,
      exists e,
        fst (finish_release E version_number repo conf meta_repo w) = Raise e).
Proof.
  split; [exact log_string_of_raises|].
  split; [reflexivity|]. split; [reflexivity|].
  intros. apply finish_release_raises.
Qed.

Lemma finish_release_emits (E : env) (P : event -> bool)
      (version_number : string) (repo : Repository) (conf : Conf)
      (meta_repo : string) :
  (forall e, reno_event e = true -> P e = true) ->
  (forall e, changelog_event e = true -> P e = true) ->
  (forall gh, P (EGetBranches gh) = true) ->
  (forall e, is_lock_event e = true -> P e = true) ->
  P (EGetRepo meta_repo) = true ->
  emits P (finish_release E version_number repo conf meta_repo).
Proof.
  intros Hreno Hlog Hbranches Hlock Hrepo. unfold finish_release.
  do 4 (apply emits_bind; [apply emits_lift | intros ?]).
  apply emits_bind; [apply emits_query, Hrepo | intros meta].
  apply emits_bind_raises.
  - apply emits_with_lock; try (apply Hlock; reflexivity).
    apply emits_release_steps; assumption.
  - apply with_lock_raises, release_steps_raises.
Qed.

(** C5. [finish_release] never creates a stable branch: with
    [branch_on_release] set it lists the branches and then tests
    [version_number_pieces[2] == 0], a string against an integer, which is
    false for every version, 1.2.0 included. No run, whatever the
    configuration, the version and the branches of the repository, adds a
    branch creation to the events; in the release of 1.2.0 with
    [branch_on_release] enabled and only [master] on the repository, where
    the claim requires stable/1.2 to be created and pushed, the run lists
    the branches and goes on without creating one. *)
Theorem C5_stable_branch_is_never_cut :
  (forall E version_number repo conf meta_repo w,
      List.filter cuts_branch
        (trace (snd (finish_release E version_number repo conf meta_repo w)))
      = List.filter cuts_branch (trace w)) /\
  events (snd (finish_release (Scenario.quiet [] []) "1.2.0" Scenario.terra
                 Scenario.conf "Qiskit/qiskit" (init_world ∅)))
  = [ EGetRepo "Qiskit/qiskit";
      EAcquire "/work/lock/qiskit-terra";
      ERunProcess ["reno"; "report"; "--version"; "1.2.0"] "/work/qiskit-terra";
      EGetBranches Scenario.terra_gh;
      ERelease "/work/lock/qiskit-terra" ].
Proof.
  split; [|vm_compute; reflexivity].
  intros. apply emits_filter with (P := fun e => negb (cuts_branch e)).
  - intros e H. apply negb_true_iff in H. exact H.
  - apply finish_release_emits; try (intros e He; destruct e; try discriminate);
      reflexivity.
Qed.

(** ** Release notes (lines 29-36) *)

(** C7, as amended. [_run_reno] returns what the tool printed when it exits
    with status 0; when it exits with another status, which [check=True]
    turns into [CalledProcessError], the failure is logged and [None] is
    returned. The handler names that exception only: when the tool cannot
    be started the exception of the attempt is not caught, nothing is
    logged, and it leaves [_run_reno]. *)
Theorem C7_run_reno_absorbs_a_failed_exit_only
        (E : env) (local_path version_number : string) (w : world) :
  let run := ERunProcess ["reno"; "report"; "--version"; version_number]
                         local_path in
  let logged := log (ELogException "reno report failed") (log run w) in
  _run_reno E local_path version_number w =
  match process E ["reno"; "report"; "--version"; version_number] local_path
  with
  | Exited code out =>
      if code =? 0 then (Ok (Some out), log run w) else (Ok None, logged)
  | SpawnFailed e =>
      if bool_decide (e = CalledProcessError) then (Ok None, logged)
      else (Raise e, log run w)
  end.
Proof.
  cbv zeta. unfold _run_reno, try_except. rewrite bind_run.
  unfold subprocess_run.
  destruct (process E _ local_path) as [code out|e]; cbn.
  - destruct (code =? 0); reflexivity.
  - unfold is_CalledProcessError. destruct (bool_decide _); reflexivity.
Qed.

(** C7, the claim as stated fails: the [reno] executable is missing, the
    attempt to start it raises [FileNotFoundError], and [_run_reno] raises
    it instead of returning [None]; nothing is logged. *)
Lemma C7_missing_tool_raises :
  process Scenario.reno_missing ["reno"; "report"; "--version"; "1.2.0"]
          "/work/qiskit-terra"
  = SpawnFailed (OtherError "FileNotFoundError") /\
  _run_reno Scenario.reno_missing "/work/qiskit-terra" "1.2.0" (init_world ∅)
  = (Raise (OtherError "FileNotFoundError"),
     log (ERunProcess ["reno"; "report"; "--version"; "1.2.0"]
                      "/work/qiskit-terra") (init_world ∅)).
Proof. split; reflexivity. Qed.

(** ** The release of an empty history (lines 90-93, 121-124) *)

(** C9. When the log of the range is empty, [_generate_changelog] returns
    [None] and [create_github_release] goes on to create the hosted release
    with the tag, the name made of the repository name and the version, and
    [None] as its body. *)
Theorem C9_empty_history_is_released_without_body
        (E : env) (repo : Repository) (log_string version_number : string)
        (categories : list (string * string)) (w : world) :
  git_log E repo log_string = Ok [] ->
  let release := ECreateGitRelease (gh_repo repo) version_number
                   (name repo +:+ " " +:+ version_number) PNone in
  _generate_changelog E repo log_string categories w
  = (Ok PNone, log (EGetGitLog repo log_string) w) /\
  create_github_release E repo log_string version_number categories w
  = call E release (log (EGetGitLog repo log_string) w) /\
  trace (snd (create_github_release E repo log_string version_number
                                    categories w))
  = release :: EGetGitLog repo log_string :: trace w.
Proof.
  intros Hlog release.
  assert (_generate_changelog E repo log_string categories w
          = (Ok PNone, log (EGetGitLog repo log_string) w)) as Hgen.
  { unfold _generate_changelog. rewrite bind_run. unfold query.
    rewrite Hlog. reflexivity. }
  split; [exact Hgen|].
  assert (create_github_release E repo log_string version_number categories w
          = call E release (log (EGetGitLog repo log_string) w)) as Hrel.
  { unfold create_github_release. rewrite bind_run, Hgen. reflexivity. }
  split; [exact Hrel|].
  rewrite Hrel. unfold call. destruct (fails E release); reflexivity.
Qed.

(** C9 at the release of 1.2.0 with an empty history. *)
Lemma C9_empty_history_witness :
  git_log (Scenario.quiet [] []) Scenario.terra "1.2.0...1.1.0" = Ok [] /\
  trace (snd (create_github_release (Scenario.quiet [] []) Scenario.terra
                "1.2.0...1.1.0" "1.2.0" Scenario.categories (init_world ∅)))
  = [ ECreateGitRelease Scenario.terra_gh "1.2.0" "qiskit-terra 1.2.0" PNone;
      EGetGitLog Scenario.terra "1.2.0...1.1.0" ].
Proof.
  split; [reflexivity|].
  apply (C9_empty_history_is_released_without_body
           (Scenario.quiet [] []) Scenario.terra "1.2.0...1.1.0" "1.2.0"
           Scenario.categories (init_world ∅)).
  reflexivity.
Defined.

(** ** The open proposal (lines 52-63, 85-87) *)

Lemma emits_bump_meta_reuse (E : env) (P : event -> bool)
      (meta_repo : repo_obj) (repo : Repository) (version_number : string)
      (conf : Conf) (reno : option string) :
  (forall e, bump_event e = true -> P e = true) ->
  bump_proposal_open E meta_repo = true ->
  emits P (bump_meta E meta_repo repo version_number conf reno).
Proof.
  intros HP Hopen. unfold bump_meta.
  apply emits_bind; [apply emits_query, HP; reflexivity | intros tag].
  apply emits_bind; [apply emits_lift | intros new_version].
  apply emits_propose_bump_reuse; assumption.
Qed.

Lemma bump_event_creates_nothing (e : event) :
  bump_event e = true -> negb (cuts_branch e || opens_proposal e) = true.
Proof. destruct e; cbn; congruence. Qed.

(** When the meta repository shows an open pull request titled
    "Bump Meta", [bump_meta] creates no branch and opens no pull request:
    the run adds neither kind of event, in the part that follows the
    version computation (stated for any new version) and so in the whole
    function. Read the other way round, a run that does add such an event
    found no open pull request with that title. *)
Theorem open_bump_proposal_creates_nothing
        (E : env) (meta_repo : repo_obj) (repo : Repository)
        (version_number new_version : string) (conf : Conf)
        (reno : option string) (w : world) :
  bump_proposal_open E meta_repo = true ->
  let creating := fun e => cuts_branch e || opens_proposal e in
  List.filter creating
    (trace (snd (propose_bump E meta_repo repo version_number new_version w)))
  = List.filter creating (trace w) /\
  List.filter creating
    (trace (snd (bump_meta E meta_repo repo version_number conf reno w)))
  = List.filter creating (trace w).
Proof.
  intros Hopen creating.
  split; apply emits_filter with (P := fun e => negb (creating e));
    try (intros e H; apply negb_true_iff in H; exact H).
  - apply emits_propose_bump_reuse;
      [exact bump_event_creates_nothing | exact Hopen].
  - apply emits_bump_meta_reuse;
      [exact bump_event_creates_nothing | exact Hopen].
Qed.

(** The same with one open pull request titled "Bump Meta". *)
Lemma open_bump_proposal_example :
  bump_proposal_open (Scenario.quiet [Scenario.bump_pull] [])
                     (BotRepo Scenario.meta) = true /\
  List.filter (fun e => cuts_branch e || opens_proposal e)
    (trace (snd (propose_bump (Scenario.quiet [Scenario.bump_pull] [])
                   (BotRepo Scenario.meta) Scenario.terra "0.9.0" "0.6.0"
                   (init_world ∅))))
  = [].
Proof.
  split; [reflexivity|].
  apply (open_bump_proposal_creates_nothing
           (Scenario.quiet [Scenario.bump_pull] []) (BotRepo Scenario.meta)
           Scenario.terra "0.9.0" "0.6.0" Scenario.conf None (init_world ∅)).
  reflexivity.
Defined.

(** C3. The open proposal is never updated. The claim has [bump_meta]
    reuse an open "Bump Meta" proposal by committing to its branch; the
    code lists the open pull requests at line 52 and commits at line 83,
    but line 50 adds an integer to a piece of the latest tag, a string, and
    raises before either. Every call raises, and adds to the events no
    commit, no listing of the pull requests, no branch and no proposal;
    with the proposal open, the release of 1.2.0 over the tag 0.5.0 asks
    for the latest tag and ends in [TypeError]. *)
Theorem C3_open_proposal_is_never_updated :
  (forall E meta_repo repo version_number conf reno w,
      let reusing := fun e => is_commit e || lists_pulls e
                              || cuts_branch e || opens_proposal e in
      (exists e,
          fst (bump_meta E meta_repo repo version_number conf reno w)
          = Raise e) /\
      List.filter reusing
        (trace (snd (bump_meta E meta_repo repo version_number conf reno w)))
      = List.filter reusing (trace w)) /\
  bump_proposal_open (Scenario.quiet [Scenario.bump_pull] [])
                     (BotRepo Scenario.meta) = true /\
  bump_meta (Scenario.quiet [Scenario.bump_pull] []) (BotRepo Scenario.meta)
            Scenario.terra "1.2.0" Scenario.conf None (init_world ∅)
  = (Raise TypeError, log (EGetLatestTag Scenario.terra) (init_world ∅)).
Proof.
  split; [|split; reflexivity].
  intros E meta_repo repo version_number conf reno w reusing.
  destruct (bump_meta_run E meta_repo repo version_number conf reno w)
    as [e ->].
  split; [exists e; reflexivity | reflexivity].
Qed.

(** Without such a pull request the branch [bump_meta] is asked for, off
    [origin/master] of the meta repository, before anything else is done. *)
Lemma propose_bump_creates_branch_when_none_open
      (E : env) (meta_repo : repo_obj) (repo : Repository)
      (version_number new_version package_name : string) (gh : GhRepo)
      (pulls : list Pull) (w : world) :
  Py.index (PyString.split "/" (repo_name repo)) 1 = Ok package_name ->
  attr_gh_repo meta_repo = Ok gh ->
  open_pulls E gh = Ok pulls ->
  find_pull "Bump Meta" pulls = None ->
  In (ECreateBranch "bump_meta" "origin/master" meta_repo None)
     (trace (snd (propose_bump E meta_repo repo version_number new_version w))).
Proof.
  intros Hpkg Hgh Hpulls Hnone. unfold propose_bump.
  rewrite Hpkg, Hgh.
  rewrite bind_run, lift_run; cbv beta iota.
  rewrite bind_run, lift_run; cbv beta iota.
  rewrite bind_run; unfold query; rewrite Hpulls, Hnone; cbv beta iota.
  rewrite bind_run, bind_run. unfold call at 1.
  set (branch := ECreateBranch _ _ _ _).
  destruct (fails E branch); [left; reflexivity|].
  rewrite ret_run.
  match goal with
  | |- context [snd (?m ?w0)] => set (rest := m); set (w1 := w0)
  end.
  assert (emits (fun _ => true) rest) as Hrest.
  { subst rest. emits_steps; reflexivity. }
  destruct (Hrest w1) as (n & -> & _).
  apply in_or_app. right. left. reflexivity.
Qed.

(** ** The branch that is edited (lines 57-65) *)

Lemma triple_bind {A B} (I J K L : list event -> Prop) (m : M A)
      (f : A -> M B) :
  triple I m J K -> (forall a, triple J (f a) L K) -> triple I (m ≫= f) L K.
Proof.
  intros Hm Hf w HI. rewrite bind_run. specialize (Hm w HI).
  destruct (m w) as [[a|e] w']; [apply Hf; exact Hm | exact Hm].
Qed.

Lemma triple_emits {A} (P : event -> bool) (I J K : list event -> Prop)
      (m : M A) :
  emits P m ->
  (forall new old, forallb P new = true -> I old ->
                   J (new ++ old)%list /\ K (new ++ old)%list) ->
  triple I m J K.
Proof.
  intros Hm HP w HI. destruct (Hm w) as (n & T & F & _).
  destruct (m w) as [[a|e] w']; cbn in T; rewrite T; apply HP; assumption.
Qed.

Lemma edit_state_quiet (new old : list event) :
  forallb (fun e => negb (is_checkout e || is_open e)) new = true ->
  edit_state (new ++ old) = edit_state old.
Proof.
  induction new as [|e new IH]; cbn; [reflexivity|].
  intros [He Hn]%andb_true_iff. rewrite (IH Hn).
  destruct (edit_state old); [|reflexivity].
  destruct e; cbn in *; congruence.
Qed.

Lemma edit_state_checked_out (new old : list event) :
  forallb (fun e => negb (is_checkout e)) new = true ->
  edit_state old = Some true -> edit_state (new ++ old) = Some true.
Proof.
  intros Hn Hold. induction new as [|e new IH]; cbn; [exact Hold|].
  cbn in Hn. apply andb_true_iff in Hn as [He Hn]. rewrite (IH Hn).
  destruct e; cbn in *; congruence.
Qed.

Section EditOrder.

Variable E : env.

Lemma at_state_in_order (c : bool) (tr : list event) :
  at_state c tr -> in_order tr.
Proof.
  unfold at_state, in_order, checkout_precedes_edit. intros ->. reflexivity.
Qed.

Lemma triple_quiet {A} (c : bool) (m : M A) :
  emits (fun e => negb (is_checkout e || is_open e)) m ->
  triple (at_state c) m (at_state c) in_order.
Proof.
  intros Hm. apply (triple_emits _ _ _ _ _ Hm). intros new old Hnew Hold.
  assert (at_state c (new ++ old)) as H.
  { unfold at_state. rewrite edit_state_quiet; assumption. }
  split; [exact H | exact (at_state_in_order _ _ H)].
Qed.

Lemma triple_checked_out {A} (m : M A) :
  emits (fun e => negb (is_checkout e)) m ->
  triple (at_state true) m in_order in_order.
Proof.
  intros Hm. apply (triple_emits _ _ _ _ _ Hm). intros new old Hnew Hold.
  assert (at_state true (new ++ old)) as H.
  { apply edit_state_checked_out; assumption. }
  split; exact (at_state_in_order _ _ H).
Qed.

Lemma triple_checkout (c : bool) :
  triple (at_state c) (call E (ECheckoutRef "bump_meta"))
         (at_state true) in_order.
Proof.
  intros w Hw. unfold call, at_state, in_order, checkout_precedes_edit in *.
  destruct (fails E _); cbn; rewrite Hw; reflexivity.
Qed.

Lemma propose_bump_in_order (c : bool) (meta_repo : repo_obj)
      (repo : Repository) (version_number new_version : string) :
  triple (at_state c)
         (propose_bump E meta_repo repo version_number new_version)
         in_order in_order.
Proof.
  unfold propose_bump.
  eapply triple_bind; [apply triple_quiet, emits_lift | intros package_name].
  eapply triple_bind; [apply triple_quiet, emits_lift | intros gh].
  eapply triple_bind;
    [apply triple_quiet, emits_query; reflexivity | intros pulls].
  eapply triple_bind.
  { apply triple_quiet. destruct (find_pull _ pulls); emits_steps. reflexivity. }
  intros bump_pr.
  eapply triple_bind; [apply triple_checkout | intros _].
  apply triple_checked_out.
  apply emits_bind; [apply emits_edit_setup_py; reflexivity | intros _].
  apply emits_bind; [apply emits_call; reflexivity | intros _].
  destruct bump_pr; emits_steps. reflexivity.
Qed.

Lemma bump_meta_in_order (c : bool) (meta_repo : repo_obj)
      (repo : Repository) (version_number : string) (conf : Conf)
      (reno : option string) :
  triple (at_state c)
         (bump_meta E meta_repo repo version_number conf reno)
         in_order in_order.
Proof.
  unfold bump_meta.
  eapply triple_bind;
    [apply triple_quiet, emits_query; reflexivity | intros tag].
  eapply triple_bind; [apply triple_quiet, emits_lift | intros new_version].
  apply propose_bump_in_order.
Qed.

Lemma triple_run {A} (m : M A) (fs : gmap string string) :
  triple (at_state false) m in_order in_order ->
  checkout_precedes_edit (trace (snd (m (init_world fs)))) = true.
Proof.
  intros Hm. specialize (Hm (init_world fs) eq_refl).
  destruct (m (init_world fs)) as [[a|e] w']; exact Hm.
Qed.

(** Both paths reach the checkout, once the pull requests are listed and
    the branch, where one is asked for, is created. *)
Lemma propose_bump_checks_out (meta_repo : repo_obj) (repo : Repository)
      (version_number new_version package_name : string) (gh : GhRepo)
      (pulls : list Pull) (w : world) :
  Py.index (PyString.split "/" (repo_name repo)) 1 = Ok package_name ->
  attr_gh_repo meta_repo = Ok gh ->
  open_pulls E gh = Ok pulls ->
  fails E (ECreateBranch "bump_meta" "origin/master" meta_repo None) = None ->
  In (ECheckoutRef "bump_meta")
     (trace (snd (propose_bump E meta_repo repo version_number new_version w))).
Proof.
  intros Hpkg Hgh Hpulls Hbranch. unfold propose_bump.
  rewrite Hpkg, Hgh.
  rewrite bind_run, lift_run; cbv beta iota.
  rewrite bind_run, lift_run; cbv beta iota.
  rewrite bind_run; unfold query; rewrite Hpulls; cbv beta iota.
  rewrite bind_run.
  assert (forall (bump_pr : option Pull) (w0 : world),
             In (ECheckoutRef "bump_meta")
                (trace (snd ((call E (ECheckoutRef "bump_meta") ;;
                   edit_setup_py E
                     (PyString.os_path_join (local_path repo) "setup.py")
                     package_name (package_name +:+ "==" +:+ version_number)
                     new_version ;;
                   call E (ECommitAll meta_repo
                     ("Bump version for "
                      +:+ (package_name +:+ "==" +:+ version_number))) ;;
                   match bump_pr with
                   | None =>
                       call E (ECreatePull gh "Bump Meta" "master" "bump_meta"
                         (PyString.nl
                          +:+ "Bump the meta repo version to include:"
                          +:+ PyString.nl +:+ PyString.nl
                          +:+ (package_name +:+ "==" +:+ version_number)
                          +:+ PyString.nl +:+ PyString.nl))
                   | Some _ => mret tt
                   end) w0)))) as Hrest.
  { intros bump_pr w0. rewrite bind_run. unfold call at 1.
    destruct (fails E (ECheckoutRef "bump_meta")); [left; reflexivity|].
    match goal with
    | |- context [snd (?m ?w1)] => set (rest := m); set (w2 := w1)
    end.
    assert (emits (fun _ => true) rest) as Hemits.
    { subst rest. emits_steps; try reflexivity.
      destruct bump_pr; emits_steps; reflexivity. }
    destruct (Hemits w2) as (n & -> & _).
    apply in_or_app. right. left. reflexivity. }
  destruct (find_pull "Bump Meta" pulls) as [pull|].
  - rewrite ret_run; cbv beta iota. apply (Hrest (Some pull)).
  - rewrite bind_run. unfold call at 1. rewrite Hbranch; cbv beta iota.
    rewrite ret_run; cbv beta iota. apply (Hrest None).
Qed.

End EditOrder.

(** The order is not trivial: a file opened with no checkout before it, and
    a checkout of another branch, are rejected. *)
Lemma checkout_precedes_edit_rejects (path mode : string) :
  checkout_precedes_edit [EOpen path mode] = false /\
  checkout_precedes_edit [EOpen path mode; ECheckoutRef "master"] = false /\
  checkout_precedes_edit [EOpen path mode; ECheckoutRef "bump_meta"] = true.
Proof. repeat split; reflexivity. Qed.

Lemma find_pull_with_heads (f : Pull -> string) (wanted : string)
      (pulls : list Pull) :
  find_pull wanted
    ((fun pull => {| title := title pull; head := f pull |}) <$> pulls)
  = (fun pull => {| title := title pull; head := f pull |})
      <$> find_pull wanted pulls.
Proof.
  unfold find_pull. induction pulls as [|p pulls IH]; cbn; [reflexivity|].
  destruct (String.eqb (title p) wanted); [reflexivity | exact IH].
Qed.

(** The head branch of the pull requests is not read. *)
Lemma propose_bump_with_heads (f : Pull -> string) (E : env)
      (meta_repo : repo_obj) (repo : Repository)
      (version_number new_version : string) (w : world) :
  propose_bump (with_heads f E) meta_repo repo version_number new_version w
  = propose_bump E meta_repo repo version_number new_version w.
Proof.
  unfold propose_bump.
  rewrite !bind_run, !lift_run.
  destruct (Py.index _ 1) as [package_name|]; [|reflexivity]. cbv beta iota.
  rewrite !bind_run, !lift_run.
  destruct (attr_gh_repo meta_repo) as [gh|]; [|reflexivity]. cbv beta iota.
  rewrite !bind_run. unfold query. cbn [open_pulls with_heads].
  destruct (open_pulls E gh) as [pulls|]; [|reflexivity]. cbv beta iota.
  rewrite !bind_run, find_pull_with_heads.
  destruct (find_pull "Bump Meta" pulls); reflexivity.
Qed.

Lemma bump_meta_with_heads (f : Pull -> string) (E : env)
      (meta_repo : repo_obj) (repo : Repository) (version_number : string)
      (conf : Conf) (reno : option string) (w : world) :
  bump_meta (with_heads f E) meta_repo repo version_number conf reno w
  = bump_meta E meta_repo repo version_number conf reno w.
Proof.
  unfold bump_meta. rewrite !bind_run. unfold query. cbn [latest_tag with_heads].
  destruct (latest_tag E repo) as [tag|]; [|reflexivity]. cbv beta iota.
  rewrite !bind_run, !lift_run.
  destruct (new_meta_version _ _); [|reflexivity]. cbv beta iota.
  apply propose_bump_with_heads.
Qed.

(** After the version computation the code checks out the branch named
    [bump_meta] and no other,
    and does so before it opens the manifest, whether an open "Bump Meta"
    pull request was found or not: once the pull requests are listed (and,
    when none matches, the branch is created) the checkout is in the trace;
    in every run each opening of a file comes after it. The head branch of
    the pull requests is never read: giving them any other head branches
    leaves the run of [bump_meta] the same, so a matching pull request made
    from another branch is not the one that is updated. Stated for the part
    after the version computation, with any new version, and for the whole
    function. *)
Theorem propose_bump_edits_on_the_fixed_branch
        (E : env) (meta_repo : repo_obj) (repo : Repository)
        (version_number new_version package_name : string) (conf : Conf)
        (reno : option string) (gh : GhRepo) (pulls : list Pull)
        (f : Pull -> string) (fs : gmap string string) :
  Py.index (PyString.split "/" (repo_name repo)) 1 = Ok package_name ->
  attr_gh_repo meta_repo = Ok gh ->
  open_pulls E gh = Ok pulls ->
  fails E (ECreateBranch "bump_meta" "origin/master" meta_repo None) = None ->
  In (ECheckoutRef "bump_meta")
     (trace (snd (propose_bump E meta_repo repo version_number new_version
                    (init_world fs)))) /\
  checkout_precedes_edit
    (trace (snd (propose_bump E meta_repo repo version_number new_version
                   (init_world fs)))) = true /\
  checkout_precedes_edit
    (trace (snd (bump_meta E meta_repo repo version_number conf reno
                   (init_world fs)))) = true /\
  propose_bump (with_heads f E) meta_repo repo version_number new_version
               (init_world fs)
  = propose_bump E meta_repo repo version_number new_version (init_world fs) /\
  bump_meta (with_heads f E) meta_repo repo version_number conf reno
            (init_world fs)
  = bump_meta E meta_repo repo version_number conf reno (init_world fs).
Proof.
  intros Hpkg Hgh Hpulls Hbranch.
  split; [eapply propose_bump_checks_out; eassumption|].
  split; [apply triple_run, propose_bump_in_order|].
  split; [apply triple_run, bump_meta_in_order|].
  split; [apply propose_bump_with_heads | apply bump_meta_with_heads].
Qed.

(** The same with an open "Bump Meta" pull request whose head is another
    branch: [bump_meta] is checked out all the same. *)
Lemma fixed_branch_example :
  open_pulls (Scenario.quiet [Scenario.stray_pull] []) Scenario.meta_gh
  = Ok [Scenario.stray_pull] /\
  In (ECheckoutRef "bump_meta")
     (trace (snd (propose_bump (Scenario.quiet [Scenario.stray_pull] [])
                    (BotRepo Scenario.meta) Scenario.terra "0.9.0" "0.6.0"
                    (init_world ∅)))).
Proof.
  split; [reflexivity|].
  apply (propose_bump_edits_on_the_fixed_branch
           (Scenario.quiet [Scenario.stray_pull] []) (BotRepo Scenario.meta)
           Scenario.terra "0.9.0" "0.6.0" "qiskit-terra" Scenario.conf None
           Scenario.meta_gh [Scenario.stray_pull] head ∅);
    reflexivity.
Defined.

(** C10. No run of [bump_meta] checks a branch out. The checkout of
    [bump_meta] at line 65 and the edit that follows it come after the
    version computation of lines 44-50, which raises in every call: the
    events of a run are those before it and the request for the latest
    tag, so no checkout and no opening of a file is ever added, with an
    open "Bump Meta" proposal (here one made from another branch) and
    without one. *)
Theorem C10_bump_meta_never_checks_out :
  (forall E meta_repo repo version_number conf reno w,
      events (snd (bump_meta E meta_repo repo version_number conf reno w))
      = (events w ++ [EGetLatestTag repo])%list /\
      forall ref,
        In (ECheckoutRef ref)
           (trace (snd (bump_meta E meta_repo repo version_number conf
                                  reno w))) ->
        In (ECheckoutRef ref) (trace w)) /\
  events (snd (bump_meta (Scenario.quiet [Scenario.stray_pull] [])
                 (BotRepo Scenario.meta) Scenario.terra "1.2.0"
                 Scenario.conf None (init_world ∅)))
  = [EGetLatestTag Scenario.terra] /\
  events (snd (bump_meta (Scenario.quiet [] []) (BotRepo Scenario.meta)
                 Scenario.terra "1.2.0" Scenario.conf None (init_world ∅)))
  = [EGetLatestTag Scenario.terra] /\
  fst (bump_meta (Scenario.quiet [] []) (BotRepo Scenario.meta)
         Scenario.terra "1.2.0" Scenario.conf None (init_world ∅))
  = Raise TypeError.
Proof.
  split; [|repeat split; reflexivity].
  intros E meta_repo repo version_number conf reno w.
  destruct (bump_meta_run E meta_repo repo version_number conf reno w)
    as [e ->].
  split; [reflexivity|].
  intros ref [H | H]; [discriminate | exact H].
Qed.

(** ** The edit of the manifest (lines 66-76) *)


(** The edit does not leave a correct manifest as it is: the file is
    opened with mode ["w"], which empties it, and reading its lines from
    that handle raises [io.UnsupportedOperation], so whenever the file can
    be opened the block ends with the manifest empty and nothing written
    back. The manifest that already pins qiskit-terra==0.9.0 under
    version=0.6.0 comes out empty. (Through [bump_meta] the block is not
    reached, the version computation raising first: no run of [bump_meta]
    changes any file.) *)
Theorem manifest_edit_empties_the_manifest
        (E : env) (path package_name requirements_str new_version : string)
        (w : world) :
  fails E (EOpen path "w") = None ->
  edit_setup_py E path package_name requirements_str new_version w
  = (Raise UnsupportedOperation,
     log (EClose path) (write_file path EmptyString (log (EOpen path "w") w))) /\
  files (snd (edit_setup_py E path package_name requirements_str
                            new_version w)) !! path = Some EmptyString.
Proof.
  intros Hopen.
  assert (edit_setup_py E path package_name requirements_str new_version w
          = (Raise UnsupportedOperation,
             log (EClose path)
                 (write_file path EmptyString (log (EOpen path "w") w)))) as H.
  { unfold edit_setup_py, with_open. rewrite Hopen. reflexivity. }
  split; [exact H|]. rewrite H. cbn. apply lookup_insert_eq.
Qed.

(** The edit at the manifest that is already correct. *)
Lemma manifest_edit_example :
  files (init_world {[ Scenario.setup_py := Scenario.bumped_manifest ]})
    !! Scenario.setup_py = Some Scenario.bumped_manifest /\
  files (snd (edit_setup_py (Scenario.quiet [] []) Scenario.setup_py
                "qiskit-terra" "qiskit-terra==0.9.0" "0.6.0"
                (init_world {[ Scenario.setup_py := Scenario.bumped_manifest ]})))
    !! Scenario.setup_py = Some EmptyString.
Proof.
  split; [reflexivity|].
  apply (manifest_edit_empties_the_manifest (Scenario.quiet [] [])
           Scenario.setup_py "qiskit-terra" "qiskit-terra==0.9.0" "0.6.0"
           (init_world {[ Scenario.setup_py := Scenario.bumped_manifest ]})).
  reflexivity.
Defined.


(** ** The two locks (lines 138-167) *)

Lemma phase_after_app (rl ml : string) (start : phase) (new old : list event) :
  phase_after rl ml start (new ++ old) =
  match phase_after rl ml start old with
  | Some p => phase_after rl ml p new
  | None => None
  end.
Proof.
  induction new as [|e new IH]; cbn.
  - destruct (phase_after rl ml start old); reflexivity.
  - rewrite IH. destruct (phase_after rl ml start old); reflexivity.
Qed.

Lemma phase_in_release (rl ml : string) (new : list event) :
  forallb release_event new = true ->
  phase_after rl ml InRelease new = Some InRelease.
Proof.
  induction new as [|e new IH]; cbn; [reflexivity|].
  intros [He Hn]%andb_true_iff. rewrite (IH Hn).
  destruct e; cbn in *; try rewrite He; try reflexivity; discriminate.
Qed.

Lemma phase_in_meta (rl ml : string) (new : list event) :
  forallb meta_event new = true ->
  phase_after rl ml InMeta new = Some InMeta.
Proof.
  induction new as [|e new IH]; cbn; [reflexivity|].
  intros [He Hn]%andb_true_iff. rewrite (IH Hn).
  destruct e; cbn in *; try rewrite He; try reflexivity; discriminate.
Qed.

(** One scope: if taking the lock leads from phase [p0] to [p1], the body
    stays in [p1], and giving the lock back leads to [p2], then the
    statement ends in [p2] with the lock given back, whether the body
    returned or raised; or the lock could not be taken, the statement
    raised and nothing happened. *)
Lemma with_lock_phase {A} (E : env) (P : event -> bool) (rl ml path : string)
      (p0 p1 p2 : phase) (body : M A) (w : world) :
  emits P body ->
  phase_after rl ml Before (trace w) = Some p0 ->
  lock_step rl ml p0 (EAcquire path) = Some p1 ->
  (forall new, forallb P new = true -> phase_after rl ml p1 new = Some p1) ->
  lock_step rl ml p1 (ERelease path) = Some p2 ->
  held (snd (with_lock E path body w)) = held w /\
  (phase_after rl ml Before (trace (snd (with_lock E path body w))) = Some p2 \/
   phase_after rl ml Before (trace (snd (with_lock E path body w))) = Some p0 /\
   exists e, fst (with_lock E path body w) = Raise e).
Proof.
  intros Hbody H0 Hacq Hstay Hrel. unfold with_lock.
  destruct (fails E (EAcquire path)) as [x|]; cbn; [eauto|].
  destruct (Hbody (acquire path w)) as (new & T & F & H).
  destruct (body (acquire path w)) as [r w']. cbn in *.
  rewrite H, remove_first_head. split; [reflexivity|]. left.
  rewrite T, phase_after_app. cbn. rewrite H0, Hacq, (Hstay new F).
  exact Hrel.
Qed.

(** Two scopes in sequence keep the discipline, whatever the bodies do
    within their classes of events and however they end. *)
Lemma two_locks_keep_discipline {A B} (E : env) (rl ml : string)
      (body1 : M A) (body2 : A -> M B) (w : world) :
  emits release_event body1 ->
  (forall a, emits meta_event (body2 a)) ->
  phase_after rl ml Before (trace w) = Some Before ->
  held (snd ((with_lock E rl body1 ≫= fun a => with_lock E ml (body2 a)) w))
  = held w /\
  lock_discipline rl ml
    (trace (snd ((with_lock E rl body1 ≫= fun a => with_lock E ml (body2 a)) w)))
  = true.
Proof.
  intros H1 H2 Hw. rewrite bind_run. unfold lock_discipline.
  destruct (with_lock_phase E release_event rl ml rl Before InRelease Between
              body1 w H1 Hw) as [Hheld Hphase].
  { cbn. rewrite String.eqb_refl. reflexivity. }
  { apply phase_in_release. }
  { cbn. rewrite String.eqb_refl. reflexivity. }
  destruct (with_lock E rl body1 w) as [[a|e] w1]; cbn in *.
  - destruct Hphase as [Hbetween | [_ [e He]]]; [|discriminate].
    destruct (with_lock_phase E meta_event rl ml ml Between InMeta After
                (body2 a) w1 (H2 a) Hbetween) as [Hheld2 Hphase2].
    { cbn. rewrite String.eqb_refl. reflexivity. }
    { apply phase_in_meta. }
    { cbn. rewrite String.eqb_refl. reflexivity. }
    rewrite Hheld2, Hheld. split; [reflexivity|].
    destruct Hphase2 as [-> | [-> _]]; reflexivity.
  - split; [exact Hheld|].
    destruct Hphase as [-> | [-> _]]; reflexivity.
Qed.

Lemma emits_release_steps_events (E : env) (version_number : string)
      (repo : Repository) (repo_config : RepoConfig) (pieces : list string)
      (branch_number : string) :
  emits release_event
        (release_steps E version_number repo repo_config pieces branch_number).
Proof.
  apply emits_release_steps; unfold release_event.
  - intros e ->. reflexivity.
  - intros e ->. rewrite orb_true_r. reflexivity.
  - reflexivity.
Qed.

Lemma emits_meta_steps_events (E : env) (meta_repo : GhRepo)
      (repo : Repository) (version_number : string) (conf : Conf)
      (reno_notes : option string) :
  emits meta_event
        (meta_steps E meta_repo repo version_number conf reno_notes).
Proof.
  unfold meta_steps. apply emits_bind; [|intros _; apply emits_call; reflexivity].
  apply emits_bump_meta; unfold meta_event.
  - intros e ->. reflexivity.
  - reflexivity.
  - reflexivity.
Qed.

(** In every run of [finish_release] the lock named after the released
    repository is the first taken, only the release notes, the branch
    listing and cut, and the changelog and release happen under it, and it
    is given back, however they end, before the lock named after the meta
    repository is taken; only the meta bump and the final checkout of the
    default branch happen under that one, and it is given back as well. A
    run that starts holding no lock ends holding none. *)
Theorem locks_are_scoped_and_ordered
        (E : env) (version_number : string) (repo : Repository) (conf : Conf)
        (meta_repo : string) (fs : gmap string string) :
  held (snd (finish_release E version_number repo conf meta_repo
                            (init_world fs))) = [] /\
  lock_discipline (release_lock_path conf repo)
                  (meta_lock_path E conf meta_repo)
    (trace (snd (finish_release E version_number repo conf meta_repo
                                (init_world fs)))) = true.
Proof.
  unfold finish_release, release_lock_path, meta_lock_path.
  rewrite bind_run, lift_run.
  destruct (lock_dir_of (working_dir conf)) as [lock_dir|];
    [|split; reflexivity].
  cbv beta iota. rewrite bind_run, lift_run.
  destruct (getitem (api_key conf)) as [key|]; [|split; reflexivity].
  cbv beta iota. rewrite bind_run, lift_run.
  destruct (getitem (repos conf)) as [all_repos|]; [|split; reflexivity].
  cbv beta iota. rewrite bind_run, lift_run.
  destruct (getitem (all_repos !! repo_name repo)) as [repo_config|];
    [|split; reflexivity].
  cbv beta iota. rewrite bind_run. unfold query.
  destruct (get_repo E meta_repo) as [meta|]; [|split; reflexivity].
  cbv beta iota.
  apply (two_locks_keep_discipline E _ _ _ _ (log (EGetRepo meta_repo)
                                                  (init_world fs))).
  - apply emits_release_steps_events.
  - intros notes. apply emits_meta_steps_events.
  - reflexivity.
Qed.

(** The discipline is not trivial: a lock still held at the end, the
    second lock taken while the first is held, and a release step outside
    the first lock are all rejected. *)
Lemma lock_discipline_rejects (rl ml : string) (gh : GhRepo) :
  lock_discipline rl ml [EAcquire rl] = false /\
  lock_discipline rl ml [ERelease ml; EAcquire ml; EAcquire rl] = false /\
  lock_discipline rl ml [EGetBranches gh] = false.
Proof.
  unfold lock_discipline. cbn. rewrite String.eqb_refl. cbn. auto.
Qed.

(** The release of qiskit-terra 1.2.0: the first lock is taken and given
    back around the release notes and the branch listing. *)
Lemma locks_of_the_terra_release :
  release_lock_path Scenario.conf Scenario.terra = "/work/lock/qiskit-terra" /\
  meta_lock_path (Scenario.quiet [] []) Scenario.conf "Qiskit/qiskit"
  = "/work/lock/qiskit" /\
  lock_discipline "/work/lock/qiskit-terra" "/work/lock/qiskit"
    (trace (snd (finish_release (Scenario.quiet [] []) "1.2.0" Scenario.terra
                   Scenario.conf "Qiskit/qiskit" (init_world ∅)))) = true.
Proof. repeat split; vm_compute; reflexivity. Qed.



(** ** The changelog (lines 95-104) *)

Lemma star_sound (k : nat -> list ascii -> option (nat * nat)) (pos : nat)
      (s : list ascii) (m : nat * nat) :
  Re.star k pos s = Some m ->
  exists a rest, s = (a ++ rest)%list /\ no_newline a /\
                 k (pos + List.length a)%nat rest = Some m.
Proof.
  assert (forall pos s, k pos s = Some m ->
            exists a rest, s = (a ++ rest)%list /\ no_newline a /\
                           k (pos + List.length a)%nat rest = Some m) as Hempty.
  { intros pos' s' H. exists [], s'. cbn. rewrite Nat.add_0_r.
    split; [reflexivity|]. split; [reflexivity | exact H]. }
  revert pos. induction s as [|c r IH]; intros pos; cbn.
  - apply Hempty.
  - destruct (Re.is_newline c) eqn:Hc; [apply Hempty|].
    destruct (Re.star k (S pos) r) as [m'|] eqn:Hs; [|apply Hempty].
    intros [= <-]. destruct (IH (S pos) Hs) as (a & rest & -> & Fa & Hk).
    exists (c :: a), rest. unfold no_newline in *. cbn. rewrite Hc.
    rewrite Nat.add_succ_r. auto.
Qed.

Lemma star_tries_empty (k : nat -> list ascii -> option (nat * nat))
      (pos : nat) (s : list ascii) :
  is_Some (k pos s) -> is_Some (Re.star k pos s).
Proof.
  intros H. destruct s as [|c r]; cbn; [exact H|].
  destruct (Re.is_newline c); [exact H|].
  destruct (Re.star k (S pos) r); [eauto | exact H].
Qed.

Lemma star_complete (k : nat -> list ascii -> option (nat * nat)) (pos : nat)
      (a rest : list ascii) :
  no_newline a -> is_Some (k (pos + List.length a)%nat rest) ->
  is_Some (Re.star k pos (a ++ rest)).
Proof.
  revert pos. induction a as [|c a IH]; intros pos Ha Hk; cbn in *.
  - rewrite Nat.add_0_r in Hk. apply star_tries_empty, Hk.
  - unfold no_newline in Ha. cbn in Ha.
    apply andb_true_iff in Ha as [Hc Ha]. apply negb_true_iff in Hc.
    rewrite Hc. rewrite Nat.add_succ_r in Hk.
    destruct (IH (S pos) Ha Hk) as [m' ->]. eauto.
Qed.

(** The pattern matches exactly the texts that hold such a group. *)
Lemma pr_regex_matches_iff (s : string) :
  is_Some (Re.match_group1 pr_regex s) <->
  has_pr_group (list_ascii_of_string s).
Proof.
  unfold Re.match_group1, pr_regex, has_pr_group.
  generalize (list_ascii_of_string s) as text. intros text.
  cbn -[Ascii.eqb]. split.
  - intros [g Hg].
    destruct (Re.star _ 0%nat text) as [[gs ge]|] eqn:Hstar; [|discriminate].
    apply star_sound in Hstar as (a & rest & -> & Ha & Hk).
    destruct rest as [|d rest]; [discriminate|].
    destruct (Ascii.eqb_spec "("%char d) as [<-|]; [|discriminate].
    apply star_sound in Hk as (b & rest' & -> & Hb & Hk).
    destruct rest' as [|d' c]; [discriminate|].
    destruct (Ascii.eqb_spec ")"%char d') as [<-|]; [|discriminate].
    exists a, b, c. auto.
  - intros (a & b & c & -> & Ha & Hb).
    match goal with
    | |- context [Re.star ?k 0%nat ?text] =>
        assert (is_Some (Re.star k 0%nat text)) as [[gs ge] ->]; [|eauto]
    end.
    apply star_complete; [exact Ha|]. cbn -[Ascii.eqb].
    rewrite Ascii.eqb_refl.
    apply star_complete; [exact Hb|]. cbn -[Ascii.eqb].
    rewrite Ascii.eqb_refl. eauto.
Qed.

Lemma summarize_all_raises (history : list string) (line : string) :
  In line history ->
  Re.match_group1 pr_regex (summary_of line) = None ->
  summarize_all history = Raise TypeError.
Proof.
  intros Hin Hnone. induction history as [|l r IH]; [destruct Hin|].
  cbn. unfold summarize at 1.
  destruct (Re.match_group1 pr_regex (summary_of l)) as [g|] eqn:Hl;
    [|reflexivity].
  destruct Hin as [-> | Hin]; [congruence|].
  cbn. rewrite (IH Hin). reflexivity.
Qed.

(** When the retrieved log has a line whose summary the
    pattern does not match (no open parenthesis followed, on the same
    line, by a close parenthesis), changelog generation raises: the failed
    match is [None] and subscripting it is a [TypeError], the code having
    no exception of its own for it. This happens in the first pass over
    the log, before any label is looked up, so such a line is never
    skipped. *)
Theorem line_without_group_raises
        (E : env) (repo : Repository) (log_string : string)
        (categories : list (string * string)) (w : world)
        (history : list string) (line : string) :
  git_log E repo log_string = Ok history ->
  In line history ->
  Re.match_group1 pr_regex (summary_of line) = None ->
  _generate_changelog E repo log_string categories w
  = (Raise TypeError, log (EGetGitLog repo log_string) w).
Proof.
  intros Hlog Hin Hnone. unfold _generate_changelog.
  rewrite bind_run. unfold query. rewrite Hlog.
  destruct history as [|l r]; [destruct Hin|].
  rewrite bind_run, lift_run, (summarize_all_raises _ _ Hin Hnone).
  reflexivity.
Qed.

(** The same at a log whose second line has no identifier. *)
Lemma line_without_group_example :
  In "def5678 Update the docs"
     ["abc1234 Fix the frobnicator (#12)"; "def5678 Update the docs"] /\
  Re.match_group1 pr_regex (summary_of "def5678 Update the docs") = None /\
  _generate_changelog
    (Scenario.quiet [] ["abc1234 Fix the frobnicator (#12)";
                        "def5678 Update the docs"])
    Scenario.terra "1.2.0...1.1.0" Scenario.categories (init_world ∅)
  = (Raise TypeError,
     log (EGetGitLog Scenario.terra "1.2.0...1.1.0") (init_world ∅)).
Proof.
  split; [right; left; reflexivity|]. split; [reflexivity|].
  apply (line_without_group_raises
           (Scenario.quiet [] ["abc1234 Fix the frobnicator (#12)";
                               "def5678 Update the docs"])
           Scenario.terra "1.2.0...1.1.0" Scenario.categories (init_world ∅)
           ["abc1234 Fix the frobnicator (#12)"; "def5678 Update the docs"]
           "def5678 Update the docs").
  - reflexivity.
  - right; left; reflexivity.
  - reflexivity.
Defined.

Lemma no_group_iff (s : string) :
  Re.match_group1 pr_regex s = None <->
  ~ has_pr_group (list_ascii_of_string s).
Proof.
  rewrite <- pr_regex_matches_iff.
  destruct (Re.match_group1 pr_regex s) as [g|]; split.
  - discriminate.
  - intros H. destruct H. eauto.
  - intros _ [g Hg]. discriminate.
  - reflexivity.
Qed.

(** The first pass over the log either gives one entry per line or meets
    a line without a group. *)
Lemma summarize_all_cases (history : list string) :
  (exists git_summaries,
      summarize_all history = Ok git_summaries /\
      List.length git_summaries = List.length history) \/
  (exists line,
      In line history /\
      Re.match_group1 pr_regex (summary_of line) = None).
Proof.
  induction history as [|l r IH].
  - left. exists []. auto.
  - destruct (Re.match_group1 pr_regex (summary_of l)) as [g|] eqn:Hl.
    + destruct IH as [(gs & Hgs & Hlen) | (line & Hin & Hnone)].
      * left. exists ((summary_of l, PyString.tail g) :: gs).
        cbn. unfold summarize. rewrite Hl. cbn. rewrite Hgs. cbn. auto.
      * right. exists line. split; [right|]; assumption.
    + right. exists l. split; [left; reflexivity | exact Hl].
Qed.

Lemma builtin_int_raises (E : env) (pr : string) (e : exn) :
  builtin_int E pr = Raise e -> e = ValueError.
Proof.
  unfold builtin_int, Py.int. destruct (PyString.is_ascii pr).
  - destruct (match Py.strip pr with
              | String "-" r => Z.opp <$> Py.digits 0 false r
              | String "+" r => Py.digits 0 false r
              | _ => Py.digits 0 false (Py.strip pr)
              end); congruence.
  - destruct (int_of_text E pr); congruence.
Qed.

(** The second pass over a log that is not empty is heard of: it stops at
    once on a token that is no number, or it looks a pull request up. *)
Lemma collect_is_heard (E : env) (gh : GhRepo)
      (git_summaries : list (string * string)) (d : changelog_dict_t)
      (w w' : world) (r : outcome changelog_dict_t) :
  git_summaries <> [] ->
  collect E gh git_summaries d w = (r, w') ->
  r = Raise ValueError /\ w' = w \/
  (List.length (trace w) < List.length (trace w'))%nat.
Proof.
  destruct git_summaries as [|[summary pr] rest]; [congruence|].
  intros _. cbn [collect]. rewrite bind_run, lift_run.
  destruct (builtin_int E pr) as [number|e] eqn:Hint.
  - cbv beta iota. rewrite bind_run. unfold query.
    destruct (pull_labels E gh number) as [labels|e].
    + cbv beta iota. intros Hrun. right.
      destruct (emits_collect E (fun _ => true) gh rest
                  (foldl (file_under summary) d labels)
                  (fun e _ => eq_refl) (log (EGetPull gh number) w))
        as (new & T & _).
      rewrite Hrun in T. cbn in T. rewrite T, length_app. cbn. lia.
    + intros [= _ <-]. right. cbn. lia.
  - apply builtin_int_raises in Hint as ->. intros [= <- <-]. left. auto.
Qed.

(** C8, as amended. When the log is retrieved, changelog generation
    fails with [TypeError] right after the retrieval, before any pull
    request is looked up, exactly when some line of the log has a summary
    that holds no parenthesised group: no open parenthesis followed, on
    the first line of the summary, by a close parenthesis. Such a line is
    never skipped; the code has no exception of its own for it. *)
Theorem C8_extraction_fails_exactly_without_a_group
        (E : env) (repo : Repository) (log_string : string)
        (categories : list (string * string)) (w : world)
        (history : list string) :
  git_log E repo log_string = Ok history ->
  (_generate_changelog E repo log_string categories w
   = (Raise TypeError, log (EGetGitLog repo log_string) w)
   <->
   exists line,
     In line history /\
     ~ has_pr_group (list_ascii_of_string (summary_of line))).
Proof.
  intros Hlog. split.
  - intros Hrun.
    destruct (summarize_all_cases history)
      as [(gs & Hgs & Hlen) | (line & Hin & Hnone)];
      [exfalso | exists line; split; [exact Hin | apply no_group_iff, Hnone]].
    unfold _generate_changelog in Hrun. rewrite bind_run in Hrun.
    unfold query in Hrun. rewrite Hlog in Hrun. cbv beta iota in Hrun.
    destruct history as [|l r]; [discriminate Hrun|].
    rewrite bind_run, lift_run, Hgs in Hrun. cbv beta iota in Hrun.
    rewrite bind_run in Hrun.
    destruct (collect E (gh_repo repo) gs _
                      (log (EGetGitLog repo log_string) w))
      as [rc wc] eqn:Hc.
    apply collect_is_heard in Hc as [[-> ->] | Hlt];
      [discriminate Hrun | | destruct gs; [discriminate Hlen | congruence]].
    assert (wc = log (EGetGitLog repo log_string) w) as ->; [|lia].
    destruct rc as [d'|e]; [rewrite lift_run in Hrun|]; congruence.
  - intros (line & Hin & Hnone).
    apply line_without_group_raises with history line;
      [exact Hlog | exact Hin | apply no_group_iff, Hnone].
Qed.

(** C8 at a log whose second line has no identifier. *)
Lemma C8_extraction_fails_witness :
  git_log (Scenario.quiet [] ["abc1234 Fix the frobnicator (#12)";
                              "def5678 Update the docs"])
          Scenario.terra "1.2.0...1.1.0"
  = Ok ["abc1234 Fix the frobnicator (#12)"; "def5678 Update the docs"] /\
  _generate_changelog
    (Scenario.quiet [] ["abc1234 Fix the frobnicator (#12)";
                        "def5678 Update the docs"])
    Scenario.terra "1.2.0...1.1.0" Scenario.categories (init_world ∅)
  = (Raise TypeError,
     log (EGetGitLog Scenario.terra "1.2.0...1.1.0") (init_world ∅)).
Proof.
  split; [reflexivity|].
  apply (C8_extraction_fails_exactly_without_a_group
           (Scenario.quiet [] ["abc1234 Fix the frobnicator (#12)";
                               "def5678 Update the docs"])
           Scenario.terra "1.2.0...1.1.0" Scenario.categories (init_world ∅)
           ["abc1234 Fix the frobnicator (#12)"; "def5678 Update the docs"]
           eq_refl).
  exists "def5678 Update the docs". split; [right; left; reflexivity|].
  apply no_group_iff. reflexivity.
Defined.

(** C8, the claim as stated fails. The second line of the log has no
    identifier: generation fails, but with [TypeError], which is no
    [MalformedLogEntry]; the code raises no exception of that name. And
    the extraction does not ask for a number: the line that ends in
    [(docs)] passes it with the token [ocs], and the failure comes from
    [int] in the second pass, a [ValueError], after the pull request of
    the line before was looked up. *)
Lemma C8_failure_is_no_malformed_log_entry :
  (fst (_generate_changelog
          (Scenario.quiet [] ["abc1234 Fix the frobnicator (#12)";
                              "def5678 Update the docs"])
          Scenario.terra "1.2.0...1.1.0" Scenario.categories (init_world ∅))
   = Raise TypeError /\
   TypeError <> OtherError "MalformedLogEntry") /\
  summarize "def5678 Update the build (docs)"
  = Ok ("Update the build (docs)", "ocs") /\
  _generate_changelog
    (Scenario.quiet [] ["abc1234 Fix the frobnicator (#12)";
                        "def5678 Update the build (docs)"])
    Scenario.terra "1.2.0...1.1.0" Scenario.categories (init_world ∅)
  = (Raise ValueError,
     log (EGetPull Scenario.terra_gh 12)
         (log (EGetGitLog Scenario.terra "1.2.0...1.1.0") (init_world ∅))).
Proof.
  split; [split; [reflexivity | discriminate]|].
  split; reflexivity.
Qed.

(** With a category configured the rendering fails on the first heading,
    whatever the log: [changelog] is a string and has no [append]. *)
Lemma render_raises_on_first_category
      (categories : list (string * string)) (label : string)
      (summaries : list string) (d : changelog_dict_t) (text : string) :
  render categories ((label, summaries) :: d) (PStr text)
  = Raise AttributeError.
Proof. reflexivity. Qed.

(** * Further properties *)

(** ** [bump_meta] after the version computation (lines 51-87) *)

Lemma edit_setup_py_raises (E : env) (path package_name requirements_str
                            new_version : string) :
  always_raises (edit_setup_py E path package_name requirements_str
                               new_version).
Proof.
  intros w. unfold edit_setup_py, with_open.
  destruct (fails E (EOpen path "w")); eexists; reflexivity.
Qed.

Lemma emits_propose_bump_short (E : env) (P : event -> bool)
      (meta_repo : repo_obj) (repo : Repository)
      (version_number new_version : string) :
  (forall gh, P (EGetPulls gh) = true) ->
  P (ECreateBranch "bump_meta" "origin/master" meta_repo None) = true ->
  P (ECheckoutRef "bump_meta") = true ->
  (forall path, P (EOpen path "w") = true) ->
  (forall path, P (EClose path) = true) ->
  emits P (propose_bump E meta_repo repo version_number new_version).
Proof.
  intros Hpulls Hbranch Hcheckout Hopen Hclose. unfold propose_bump.
  apply emits_bind; [apply emits_lift | intros package_name].
  apply emits_bind; [apply emits_lift | intros gh].
  apply emits_bind; [apply emits_query, Hpulls | intros pulls].
  apply emits_bind.
  { destruct (find_pull _ pulls); emits_steps. exact Hbranch. }
  intros bump_pr.
  apply emits_bind; [apply emits_call, Hcheckout | intros _].
  apply emits_bind_raises.
  - apply emits_edit_setup_py; [apply Hopen | apply Hclose].
  - apply edit_setup_py_raises.
Qed.

(** X1. Whatever the environment and the arguments, the part of
    [bump_meta] that follows the version computation never commits and
    never opens a pull request: the edit of the manifest raises in every
    run (the file cannot be opened, or its write-only handle cannot be
    read), so lines 83-87 are not reached. *)
Theorem propose_bump_never_commits_nor_proposes
        (E : env) (meta_repo : repo_obj) (repo : Repository)
        (version_number new_version : string) (w : world) :
  (exists e, fst (propose_bump E meta_repo repo version_number new_version w)
             = Raise e) /\
  List.filter (fun e => is_commit e || opens_proposal e)
    (trace (snd (propose_bump E meta_repo repo version_number new_version w)))
  = List.filter (fun e => is_commit e || opens_proposal e) (trace w).
Proof.
  split.
  - revert w. unfold propose_bump.
    do 4 (apply bind_always_raises; intros ?).
    apply bind_always_raises. intros _.
    apply bind_always_raises_l, edit_setup_py_raises.
  - apply emits_filter
      with (P := fun e => negb (is_commit e || opens_proposal e)).
    + intros e H. apply negb_true_iff in H. exact H.
    + apply emits_propose_bump_short; reflexivity.
Qed.

(** X2. Called the way [finish_release] calls it, with the repository
    object of the GitHub client as [meta_repo], the same part of
    [bump_meta] reaches no collaborator at all: reading
    [meta_repo.gh_repo] raises [AttributeError] (or the split of a
    repository name without a slash raises [IndexError] just before) and
    the world is left as it was. *)
Theorem propose_bump_on_hosted_repo_raises
        (E : env) (meta : GhRepo) (repo : Repository)
        (version_number new_version : string) (w : world) :
  propose_bump E (HostedRepo meta) repo version_number new_version w
  = (Raise (if bool_decide (2 <= List.length
                                   (PyString.split "/" (repo_name repo)))%nat
            then AttributeError else IndexError), w).
Proof.
  unfold propose_bump. rewrite bind_run, lift_run. unfold Py.index.
  destruct (PyString.split "/" (repo_name repo)) as [|p0 [|p1 ps]];
    reflexivity.
Qed.

(** ** [finish_release], from the configuration to the first lock
       (lines 129-146) *)

Lemma lift_log_string_raises (version_number : string) (pieces : list string)
  : always_raises (lift (log_string_of version_number pieces)).
Proof.
  intros w. rewrite lift_run. cbn.
  destruct (log_string_of_raises version_number pieces) as [-> | ->]; eauto.
Qed.

(** The steps under the first lock emit the events of the release notes
    only if the notes are configured, list the branches only if the stable
    branch is configured, and nothing else: the log range raises next. *)
Lemma emits_release_steps_gated (E : env) (P : event -> bool)
      (version_number : string) (repo : Repository) (repo_config : RepoConfig)
      (pieces : list string) (branch_number : string) :
  (reno repo_config = true -> forall e, reno_event e = true -> P e = true) ->
  (branch_on_release repo_config = true ->
   forall gh, P (EGetBranches gh) = true) ->
  emits P (release_steps E version_number repo repo_config pieces
                         branch_number).
Proof.
  intros Hreno Hbranches. unfold release_steps.
  apply emits_bind.
  { destruct (reno repo_config);
      [apply emits_run_reno, Hreno; reflexivity | apply emits_ret]. }
  intros reno_notes. apply emits_bind.
  { destruct (branch_on_release repo_config); [|apply emits_ret].
    apply emits_bind;
      [apply emits_query, Hbranches; reflexivity | intros repo_branches].
    apply emits_bind; [apply emits_lift | intros p2].
    rewrite str_never_equals_int. apply emits_ret. }
  intros _. apply emits_bind_raises;
    [apply emits_lift | apply lift_log_string_raises].
Qed.

Lemma emits_finish_release_gated (E : env) (P : event -> bool)
      (version_number : string) (repo : Repository) (conf : Conf)
      (meta_repo : string) :
  (forall rc, repo_config_of conf repo = Some rc -> reno rc = true ->
              forall e, reno_event e = true -> P e = true) ->
  (forall rc, repo_config_of conf repo = Some rc ->
              branch_on_release rc = true ->
              forall gh, P (EGetBranches gh) = true) ->
  (forall e, is_lock_event e = true -> P e = true) ->
  P (EGetRepo meta_repo) = true ->
  emits P (finish_release E version_number repo conf meta_repo).
Proof.
  intros Hreno Hbranches Hlock Hrepo. unfold finish_release, repo_config_of in *.
  do 2 (apply emits_bind; [apply emits_lift | intros ?]).
  apply emits_bind_lift. intros all_repos Hall.
  apply emits_bind_lift. intros repo_config Hconfig.
  destruct (repos conf) as [all_repos'|]; [|discriminate].
  injection Hall as ->.
  destruct (all_repos !! repo_name repo) as [rc|]; [|discriminate].
  injection Hconfig as ->.
  apply emits_bind; [apply emits_query, Hrepo | intros meta].
  apply emits_bind_raises.
  - apply emits_with_lock; try (apply Hlock; reflexivity).
    apply emits_release_steps_gated; [apply Hreno | apply Hbranches];
      reflexivity.
  - apply with_lock_raises, release_steps_raises.
Qed.

(** X3. No run of [finish_release] gets past the first lock: all a run
    ever does is look up the meta repository, take and give back the lock
    of the released repository, run [reno] (logging its failure) and list
    the branches. The log is never retrieved, no hosted release is
    created, and nothing of [bump_meta] or the final checkout happens; the
    locks held are the same after the run as before. *)
Theorem finish_release_stops_under_the_first_lock
        (E : env) (version_number : string) (repo : Repository) (conf : Conf)
        (meta_repo : string) (w : world) :
  extends reached_event w
          (snd (finish_release E version_number repo conf meta_repo w)).
Proof.
  apply emits_finish_release_gated;
    try (intros; match goal with e : event |- _ => destruct e end;
         try discriminate); reflexivity.
Qed.

(** X4. The configuration gates the first two steps: when
    [conf['repos'][repo.repo_name]['reno']] is false no process is run,
    and when [...['branch_on_release']] is false the branches of the
    repository are not listed. *)
Theorem finish_release_skips_what_is_switched_off
        (E : env) (version_number : string) (repo : Repository) (conf : Conf)
        (meta_repo : string) (w : world) (repo_config : RepoConfig) :
  repo_config_of conf repo = Some repo_config ->
  (reno repo_config = false ->
   List.filter runs_process
     (trace (snd (finish_release E version_number repo conf meta_repo w)))
   = List.filter runs_process (trace w)) /\
  (branch_on_release repo_config = false ->
   List.filter lists_branches
     (trace (snd (finish_release E version_number repo conf meta_repo w)))
   = List.filter lists_branches (trace w)).
Proof.
  intros Hconfig. split; intros Hoff.
  - apply emits_filter
      with (P := fun e => reached_event e && negb (runs_process e)).
    + intros e [_ H]%andb_true_iff. apply negb_true_iff in H. exact H.
    + apply emits_finish_release_gated; try reflexivity.
      * intros rc Hrc. congruence.
      * intros e He. destruct e; try discriminate; reflexivity.
  - apply emits_filter
      with (P := fun e => reached_event e && negb (lists_branches e)).
    + intros e [_ H]%andb_true_iff. apply negb_true_iff in H. exact H.
    + apply emits_finish_release_gated; try reflexivity.
      * intros rc Hrc Hon e He. destruct e; try discriminate; reflexivity.
      * intros rc Hrc. congruence.
      * intros e He. destruct e; try discriminate; reflexivity.
Qed.

(** X4 at a configuration with both switched off: the run takes and gives
    back the lock and does nothing under it. *)
Lemma finish_release_skips_witness :
  repo_config_of Scenario2.plain_conf Scenario.terra
  = Some {| reno := false; branch_on_release := false;
            changelog_categories := Scenario.categories |} /\
  List.filter runs_process
    (trace (snd (finish_release (Scenario.quiet [] []) "1.2.0" Scenario.terra
                   Scenario2.plain_conf "Qiskit/qiskit" (init_world ∅))))
  = [].
Proof.
  split; [reflexivity|].
  apply (finish_release_skips_what_is_switched_off
           (Scenario.quiet [] []) "1.2.0" Scenario.terra Scenario2.plain_conf
           "Qiskit/qiskit" (init_world ∅)
           {| reno := false; branch_on_release := false;
              changelog_categories := Scenario.categories |});
    reflexivity.
Defined.

(** X5. Release notes are not best effort for the release as a whole: with
    [reno] configured, when the tool cannot be started the exception of
    the attempt leaves [finish_release]. By then the run has looked up the
    meta repository and taken the lock of the released repository, which
    it gives back; nothing else happens. *)
Theorem finish_release_aborts_when_reno_cannot_start
        (E : env) (version_number : string) (repo : Repository) (conf : Conf)
        (meta_repo dir key : string) (repo_config : RepoConfig)
        (meta : GhRepo) (e : exn) (w : world) :
  working_dir conf = Some dir ->
  api_key conf = Some key ->
  repo_config_of conf repo = Some repo_config ->
  reno repo_config = true ->
  get_repo E meta_repo = Ok meta ->
  fails E (EAcquire (PyString.os_path_join (PyString.os_path_join dir "lock")
                                           (name repo))) = None ->
  process E ["reno"; "report"; "--version"; version_number] (local_path repo)
  = SpawnFailed e ->
  e <> CalledProcessError ->
  let lock := PyString.os_path_join (PyString.os_path_join dir "lock")
                                    (name repo) in
  finish_release E version_number repo conf meta_repo w
  = (Raise e,
     release lock
       (log (ERunProcess ["reno"; "report"; "--version"; version_number]
                         (local_path repo))
            (acquire lock (log (EGetRepo meta_repo) w)))).
Proof.
  intros Hdir Hkey Hconfig Hreno Hmeta Hacquire Hprocess Hne lock.
  subst lock. unfold repo_config_of in Hconfig.
  destruct (repos conf) as [all_repos|] eqn:Hrepos; [|discriminate].
  unfold finish_release. rewrite Hdir, Hkey, Hrepos. cbn [lock_dir_of getitem].
  rewrite bind_run, lift_run; cbv beta iota.
  rewrite bind_run, lift_run; cbv beta iota.
  rewrite bind_run, lift_run; cbv beta iota.
  rewrite Hconfig. cbn [getitem].
  rewrite bind_run, lift_run; cbv beta iota.
  rewrite bind_run. unfold query. rewrite Hmeta; cbv beta iota.
  rewrite bind_run. unfold with_lock at 1. rewrite Hacquire.
  unfold release_steps. rewrite Hreno, bind_run.
  unfold _run_reno, try_except. rewrite bind_run. unfold subprocess_run.
  rewrite Hprocess. unfold is_CalledProcessError.
  rewrite bool_decide_eq_false_2 by exact Hne. reflexivity.
Qed.

Lemma finish_release_aborts_witness :
  process Scenario.reno_missing ["reno"; "report"; "--version"; "1.2.0"]
          (local_path Scenario.terra)
  = SpawnFailed (OtherError "FileNotFoundError") /\
  events (snd (finish_release Scenario.reno_missing "1.2.0" Scenario.terra
                 Scenario.conf "Qiskit/qiskit" (init_world ∅)))
  = [ EGetRepo "Qiskit/qiskit";
      EAcquire "/work/lock/qiskit-terra";
      ERunProcess ["reno"; "report"; "--version"; "1.2.0"] "/work/qiskit-terra";
      ERelease "/work/lock/qiskit-terra" ].
Proof.
  split; [reflexivity|].
  rewrite (finish_release_aborts_when_reno_cannot_start
             Scenario.reno_missing "1.2.0" Scenario.terra Scenario.conf
             "Qiskit/qiskit" "/work" "token"
             {| reno := true; branch_on_release := true;
                changelog_categories := Scenario.categories |}
             Scenario.meta_gh (OtherError "FileNotFoundError") (init_world ∅));
    try reflexivity.
  discriminate.
Defined.

(** X6. A configuration without one of the keys that lines 129-132
    read stops [finish_release] before it reaches any collaborator:
    without [working_dir], which is read with [conf.get], joining [None]
    to the lock directory is a [TypeError]; without [api_key], without
    [repos] or without an entry for the repository under [repos] the
    subscript is a [KeyError]. The world is left as it was. (The keys
    inside the entry of the repository are read later, under the first
    lock.) *)
Theorem finish_release_incomplete_conf
        (E : env) (version_number : string) (repo : Repository) (conf : Conf)
        (meta_repo : string) (w : world) :
  working_dir conf = None \/ api_key conf = None \/
  repo_config_of conf repo = None ->
  finish_release E version_number repo conf meta_repo w
  = (Raise (match working_dir conf with
            | None => TypeError
            | Some _ => KeyError
            end), w).
Proof.
  unfold repo_config_of, finish_release. intros H.
  destruct (working_dir conf) as [dir|]; [|reflexivity].
  destruct (api_key conf) as [key|]; [|reflexivity].
  destruct (repos conf) as [all_repos|]; [|reflexivity].
  destruct (all_repos !! repo_name repo) as [rc|] eqn:Hrc;
    [destruct H as [H | [H | H]]; discriminate|].
  cbn [lock_dir_of getitem].
  rewrite bind_run, lift_run; cbv beta iota.
  rewrite bind_run, lift_run; cbv beta iota.
  rewrite bind_run, lift_run; cbv beta iota.
  rewrite bind_run, lift_run, Hrc. reflexivity.
Qed.

Lemma finish_release_incomplete_conf_witness :
  repo_config_of Scenario2.empty_conf Scenario.terra = None /\
  finish_release (Scenario.quiet [] []) "1.2.0" Scenario.terra
                 Scenario2.empty_conf "Qiskit/qiskit" (init_world ∅)
  = (Raise KeyError, init_world ∅).
Proof.
  split; [reflexivity|].
  apply (finish_release_incomplete_conf (Scenario.quiet [] []) "1.2.0"
           Scenario.terra Scenario2.empty_conf "Qiskit/qiskit" (init_world ∅)).
  right. right. reflexivity.
Defined.

(** ** Labels, categories and rendering (lines 105-118) *)

Lemma dict_append_keys (label summary : string) (d : changelog_dict_t) :
  (dict_append label summary d).*1 = d.*1.
Proof.
  induction d as [|[k v] d IH]; cbn; [reflexivity|].
  destruct (String.eqb k label); cbn; [reflexivity | f_equal; exact IH].
Qed.

Lemma file_under_keys (summary : string) (d : changelog_dict_t)
      (label : string) :
  (file_under summary d label).*1 = d.*1.
Proof.
  unfold file_under. destruct (dict_mem label d);
    [apply dict_append_keys | reflexivity].
Qed.

Lemma file_under_all_keys (summary : string) (labels : list string)
      (d : changelog_dict_t) :
  (foldl (file_under summary) d labels).*1 = d.*1.
Proof.
  revert d. induction labels as [|l labels IH]; intros d; cbn;
    [reflexivity|]. rewrite IH. apply file_under_keys.
Qed.

(** The keys of the dictionary, and their order, are those it started
    with. *)
Lemma collect_keys (E : env) (gh : GhRepo)
      (git_summaries : list (string * string)) (d d' : changelog_dict_t)
      (w w' : world) :
  collect E gh git_summaries d w = (Ok d', w') -> d'.*1 = d.*1.
Proof.
  revert d w. induction git_summaries as [|[summary pr] r IH]; intros d w; cbn.
  - rewrite ret_run. intros [= <- _]. reflexivity.
  - rewrite bind_run, lift_run.
    destruct (builtin_int E pr) as [number|]; [|discriminate]. cbv beta iota.
    rewrite bind_run. unfold query.
    destruct (pull_labels E gh number) as [labels|]; [|discriminate].
    cbv beta iota. intros H. rewrite (IH _ _ H). apply file_under_all_keys.
Qed.

Lemma render_returns (categories : list (string * string))
      (d : changelog_dict_t) (text : string) (v : pyval) :
  render categories d (PStr text) = Ok v -> d = [] /\ v = PStr text.
Proof.
  destruct d as [|[label summaries] d]; cbn; [|discriminate].
  intros [= <-]. auto.
Qed.

Lemma generate_changelog_returns (E : env) (repo : Repository)
      (log_string : string) (categories : list (string * string))
      (w : world) (v : pyval) :
  fst (_generate_changelog E repo log_string categories w) = Ok v ->
  v = PNone /\ git_log E repo log_string = Ok [] \/
  v = bare_heading /\ categories = [].
Proof.
  unfold _generate_changelog. rewrite bind_run. unfold query.
  destruct (git_log E repo log_string) as [history|]; [|discriminate].
  cbv beta iota. destruct history as [|line history].
  { rewrite ret_run. cbn. intros [= <-]. auto. }
  rewrite bind_run, lift_run.
  destruct (summarize_all (line :: history)) as [git_summaries|];
    [|discriminate].
  cbv beta iota. rewrite bind_run.
  destruct (collect E (gh_repo repo) git_summaries _ _) as [[d|] w'] eqn:Hd;
    [|discriminate].
  rewrite lift_run. cbn [fst]. intros Hrender.
  apply render_returns in Hrender as [-> ->].
  apply collect_keys in Hd. right. split; [reflexivity|].
  destruct categories; [reflexivity | discriminate].
Qed.

(** X7. [_generate_changelog] never returns a changelog with a category in
    it. What it returns is [None], for an empty log, or the bare heading
    line, and the latter only when no category is configured: with a
    non-empty log and at least one category it raises in every run (the
    first heading is appended to a string). *)
Theorem generate_changelog_renders_no_category
        (E : env) (repo : Repository) (log_string : string)
        (categories : list (string * string)) (w : world) (v : pyval) :
  fst (_generate_changelog E repo log_string categories w) = Ok v ->
  v = PNone /\ git_log E repo log_string = Ok [] \/
  v = bare_heading /\ categories = [].
Proof. apply generate_changelog_returns. Qed.

Lemma generate_changelog_renders_no_category_witness :
  fst (_generate_changelog (Scenario.quiet [] Scenario2.history)
         Scenario.terra "1.2.0...1.1.0" [] (init_world ∅))
  = Ok bare_heading /\
  (bare_heading = PNone /\
   git_log (Scenario.quiet [] Scenario2.history) Scenario.terra
           "1.2.0...1.1.0" = Ok [] \/
   bare_heading = bare_heading /\ @nil (string * string) = []).
Proof.
  split; [reflexivity|].
  apply (generate_changelog_renders_no_category
           (Scenario.quiet [] Scenario2.history) Scenario.terra
           "1.2.0...1.1.0" [] (init_world ∅) bare_heading).
  reflexivity.
Defined.

(** X8. Every hosted release that [create_github_release] creates is for
    the repository, with the version as its tag and the repository name
    and the version as its name, and its body is [None] or the bare
    heading line (the latter only when no category is configured): a
    release never carries a categorised changelog. *)
Theorem create_github_release_body
        (E : env) (repo : Repository) (log_string version_number : string)
        (categories : list (string * string)) (w : world)
        (gh : GhRepo) (tag release_name : string) (body : pyval) :
  In (ECreateGitRelease gh tag release_name body)
     (trace (snd (create_github_release E repo log_string version_number
                                        categories w))) ->
  In (ECreateGitRelease gh tag release_name body) (trace w) \/
  gh = gh_repo repo /\ tag = version_number /\
  release_name = name repo +:+ " " +:+ version_number /\
  (body = PNone \/ body = bare_heading /\ categories = []).
Proof.
  unfold create_github_release. rewrite bind_run.
  assert (emits lookup_event
            (_generate_changelog E repo log_string categories)) as Hemits.
  { apply emits_weaken with (P := fun e => changelog_event e && lookup_event e).
    - intros e [_ H]%andb_true_iff. exact H.
    - unfold _generate_changelog.
      apply emits_bind; [apply emits_query; reflexivity | intros history].
      destruct history; [apply emits_ret|].
      apply emits_bind; [apply emits_lift | intros git_summaries].
      apply emits_bind; [|intros d; apply emits_lift].
      generalize ((fun kv : string * string => (kv.1, @nil string))
                    <$> categories) as d.
      induction git_summaries as [|[summary pr] r IH]; intros d; cbn.
      + apply emits_ret.
      + apply emits_bind; [apply emits_lift | intros number].
        apply emits_bind; [apply emits_query; reflexivity | intros labels].
        apply IH. }
  pose proof (generate_changelog_returns E repo log_string categories w) as Hv.
  destruct (Hemits w) as (new & Htrace & Hnew & _).
  destruct (_generate_changelog E repo log_string categories w)
    as [[changelog|e] w1]; cbn [fst snd] in *.
  - unfold call. set (release := ECreateGitRelease _ _ _ changelog).
    assert (trace (snd (match fails E release with
                        | Some x => (Raise x, log release w1)
                        | None => (Ok tt, log release w1)
                        end)) = release :: trace w1) as ->.
    { destruct (fails E release); reflexivity. }
    rewrite Htrace. intros [Heq | Hin].
    + right. subst release. injection Heq as <- <- <- <-.
      destruct (Hv changelog eq_refl) as [[-> _] | [-> ->]]; auto 6.
    + apply in_app_or in Hin as [Hin | Hin]; [|left; exact Hin].
      rewrite forallb_forall in Hnew. apply Hnew in Hin. discriminate.
  - rewrite Htrace. intros Hin.
    apply in_app_or in Hin as [Hin | Hin]; [|left; exact Hin].
    rewrite forallb_forall in Hnew. apply Hnew in Hin. discriminate.
Qed.

Lemma create_github_release_body_witness :
  In (ECreateGitRelease Scenario.terra_gh "1.2.0" "qiskit-terra 1.2.0"
                        bare_heading)
     (trace (snd (create_github_release (Scenario.quiet [] Scenario2.history)
                    Scenario.terra "1.2.0...1.1.0" "1.2.0" []
                    (init_world ∅)))) /\
  (In (ECreateGitRelease Scenario.terra_gh "1.2.0" "qiskit-terra 1.2.0"
                         bare_heading) (trace (init_world ∅)) \/
   Scenario.terra_gh = gh_repo Scenario.terra /\ "1.2.0" = "1.2.0" /\
   "qiskit-terra 1.2.0" = name Scenario.terra +:+ " " +:+ "1.2.0" /\
   (bare_heading = PNone \/
    bare_heading = bare_heading /\ @nil (string * string) = [])).
Proof.
  split; [left; reflexivity|].
  apply (create_github_release_body (Scenario.quiet [] Scenario2.history)
           Scenario.terra "1.2.0...1.1.0" "1.2.0" [] (init_world ∅)).
  left. reflexivity.
Defined.

Lemma collect_runs (E : env) (gh : GhRepo)
      (git_summaries : list (string * string)) (numbers : list Z)
      (d : changelog_dict_t) (w : world) :
  pr_numbers E git_summaries = Ok numbers ->
  (forall n, In n numbers -> exists labels, pull_labels E gh n = Ok labels) ->
  exists d', collect E gh git_summaries d w
             = (Ok d', log_all (EGetPull gh <$> numbers) w) /\
             d'.*1 = d.*1.
Proof.
  revert numbers d w.
  induction git_summaries as [|[summary pr] r IH]; intros numbers d w; cbn.
  - intros [= <-] _. exists d. auto.
  - destruct (builtin_int E pr) as [number|]; [|discriminate]. cbn.
    destruct (pr_numbers E r) as [ns|]; [|discriminate]. cbn.
    intros [= <-] Hlabels.
    destruct (Hlabels number) as [labels Hl]; [left; reflexivity|].
    rewrite bind_run, lift_run; cbv beta iota.
    rewrite bind_run. unfold query. rewrite Hl; cbv beta iota.
    destruct (IH ns (foldl (file_under summary) d labels)
                 (log (EGetPull gh number) w) eq_refl) as (d' & Hrun & Hkeys).
    { intros n Hn. apply Hlabels. right. exact Hn. }
    exists d'. split; [exact Hrun|].
    rewrite Hkeys. apply file_under_all_keys.
Qed.

(** *** Reading a number written in digits *)

Lemma digit_is_no_space (c : ascii) :
  Py.is_digit c = true -> Py.is_space c = false.
Proof.
  destruct c as [[] [] [] [] [] [] [] []]; vm_compute; congruence.
Qed.

Lemma digits_no_space (s : string) :
  forallb Py.is_digit (list_ascii_of_string s) = true ->
  forallb (fun c => negb (Py.is_space c)) (list_ascii_of_string s) = true.
Proof.
  induction s as [|c s IH]; cbn; [reflexivity|].
  intros [Hc Hs]%andb_true_iff.
  rewrite (digit_is_no_space c Hc), (IH Hs). reflexivity.
Qed.

Lemma rstrip_no_space (s : string) :
  forallb (fun c => negb (Py.is_space c)) (list_ascii_of_string s) = true ->
  Py.rstrip s = s.
Proof.
  induction s as [|c s IH]; cbn; [reflexivity|].
  intros [Hc Hs]%andb_true_iff. rewrite (IH Hs).
  apply negb_true_iff in Hc. rewrite Hc. destruct s; reflexivity.
Qed.

Lemma digits_decimal (acc : Z) (after_digit : bool) (s : string) :
  forallb Py.is_digit (list_ascii_of_string s) = true ->
  s <> EmptyString \/ after_digit = true ->
  Py.digits acc after_digit s = Some (decimal_go acc s).
Proof.
  revert acc after_digit. induction s as [|c s IH]; intros acc b Hs Hb.
  - destruct Hb as [Hb | ->]; [congruence | reflexivity].
  - cbn [list_ascii_of_string forallb] in Hs.
    apply andb_true_iff in Hs as [Hc Hs].
    cbn [Py.digits decimal_go]. rewrite Hc. apply IH; auto.
Qed.

Lemma digits_ascii (s : string) :
  forallb Py.is_digit (list_ascii_of_string s) = true ->
  PyString.is_ascii s = true.
Proof.
  unfold PyString.is_ascii. induction s as [|c s IH]; cbn; [reflexivity|].
  intros [Hc Hs]%andb_true_iff. rewrite (IH Hs), andb_true_r.
  destruct c as [[] [] [] [] [] [] [] []]; vm_compute in Hc |- *; congruence.
Qed.

(** [int] reads a text of digits as the number it writes. *)
Lemma int_decimal (E : env) (s : string) :
  is_decimal s = true -> builtin_int E s = Ok (decimal_value s).
Proof.
  destruct s as [|c r]; [discriminate|]. unfold is_decimal.
  intros [Hs _]%andb_true_iff.
  unfold builtin_int. rewrite (digits_ascii _ Hs).
  pose proof (digits_decimal 0 false (String c r) Hs
                (or_introl (fun H => eq_ind (String c r)
                   (fun t => match t with EmptyString => False | _ => True end)
                   I EmptyString H))) as Hdigits.
  unfold Py.int, Py.strip, decimal_value.
  assert (Py.lstrip (String c r) = String c r) as ->.
  { cbn [list_ascii_of_string forallb] in Hs.
    apply andb_true_iff in Hs as [Hc _].
    cbn. rewrite (digit_is_no_space c Hc). reflexivity. }
  rewrite (rstrip_no_space _ (digits_no_space _ Hs)).
  cbn [list_ascii_of_string forallb] in Hs.
  apply andb_true_iff in Hs as [Hc _].
  destruct c as [[] [] [] [] [] [] [] []]; try discriminate Hc;
    cbv zeta; rewrite Hdigits; reflexivity.
Qed.

Lemma pr_numbers_decimal (E : env) (git_summaries : list (string * string)) :
  Forall (fun entry => is_decimal entry.2 = true) git_summaries ->
  pr_numbers E git_summaries
  = Ok ((fun entry => decimal_value entry.2) <$> git_summaries).
Proof.
  induction 1 as [|[summary pr] r Hpr _ IH]; [reflexivity|].
  cbn in *. rewrite (int_decimal E pr Hpr). cbn. rewrite IH. reflexivity.
Qed.

(** X9. With a log whose lines all hold a parenthesised group, tokens that
    are all written in the digits 0 to 9 and a host that answers,
    [_generate_changelog] looks up the labels of one pull request per log
    line, in the order of the log, with the number the token writes,
    whether or not any category is configured; only then does it return
    the bare heading (no category) or fail on the first heading with
    [AttributeError] (some category). Nothing else happens. *)
Theorem generate_changelog_looks_up_every_line
        (E : env) (repo : Repository) (log_string : string)
        (categories : list (string * string)) (w : world)
        (line : string) (history : list string)
        (git_summaries : list (string * string)) :
  git_log E repo log_string = Ok (line :: history) ->
  summarize_all (line :: history) = Ok git_summaries ->
  Forall (fun entry => is_decimal entry.2 = true) git_summaries ->
  (forall n, In n ((fun entry => decimal_value entry.2) <$> git_summaries) ->
             exists labels, pull_labels E (gh_repo repo) n = Ok labels) ->
  _generate_changelog E repo log_string categories w
  = (match categories with
     | [] => Ok bare_heading
     | _ :: _ => Raise AttributeError
     end,
     log_all (EGetGitLog repo log_string
              :: (EGetPull (gh_repo repo)
                    <$> ((fun entry => decimal_value entry.2)
                           <$> git_summaries))) w).
Proof.
  intros Hlog Hsum Hdecimal Hlabels. unfold _generate_changelog.
  rewrite bind_run. unfold query. rewrite Hlog; cbv beta iota.
  rewrite bind_run, lift_run, Hsum; cbv beta iota.
  rewrite bind_run.
  destruct (collect_runs E (gh_repo repo) git_summaries _
              ((fun kv : string * string => (kv.1, [])) <$> categories)
              (log (EGetGitLog repo log_string) w)
              (pr_numbers_decimal E _ Hdecimal) Hlabels)
    as (d' & -> & Hkeys).
  rewrite lift_run. cbn [log_all foldl]. f_equal.
  destruct categories as [|[label heading] categories].
  - destruct d'; [reflexivity | discriminate].
  - destruct d' as [|[label' summaries] d']; [discriminate | reflexivity].
Qed.

Lemma generate_changelog_looks_up_witness :
  summarize_all Scenario2.history
  = Ok [("Fix the frobnicator (#12)", "12"); ("Update the docs (#7)", "7")] /\
  events (snd (_generate_changelog (Scenario.quiet [] Scenario2.history)
                 Scenario.terra "1.2.0...1.1.0" Scenario.categories
                 (init_world ∅)))
  = [ EGetGitLog Scenario.terra "1.2.0...1.1.0";
      EGetPull Scenario.terra_gh 12; EGetPull Scenario.terra_gh 7 ].
Proof.
  split; [reflexivity|].
  rewrite (generate_changelog_looks_up_every_line
             (Scenario.quiet [] Scenario2.history) Scenario.terra
             "1.2.0...1.1.0" Scenario.categories (init_world ∅)
             "abc1234 Fix the frobnicator (#12)"
             ["def5678 Update the docs (#7)"]
             [("Fix the frobnicator (#12)", "12"); ("Update the docs (#7)", "7")]);
    try reflexivity.
  - repeat constructor.
  - intros n _. exists ["Changelog: Bugfix"]. reflexivity.
Defined.

(** *** Filing a summary under its labels (lines 108-110) *)

Lemma dict_mem_lookup (label : string) (d : changelog_dict_t) :
  dict_mem label d
  = match dict_lookup label d with Some _ => true | None => false end.
Proof.
  induction d as [|[k v] d IH]; cbn; [reflexivity|].
  destruct (String.eqb k label); cbn; [reflexivity | exact IH].
Qed.

Lemma dict_lookup_append (label summary c : string) (d : changelog_dict_t) :
  dict_lookup c (dict_append label summary d)
  = (fun l => if String.eqb label c then l ++ [summary] else l)%list
      <$> dict_lookup c d.
Proof.
  induction d as [|[k v] d IH]; cbn; [reflexivity|].
  destruct (String.eqb_spec k label) as [->|Hk]; cbn.
  - destruct (String.eqb_spec label c) as [->|Hc]; cbn; [reflexivity|].
    destruct (dict_lookup c d); reflexivity.
  - destruct (String.eqb_spec k c) as [->|Hkc]; cbn; [|exact IH].
    destruct (String.eqb_spec label c) as [->|Hc]; [congruence | reflexivity].
Qed.

Lemma dict_lookup_file_under (summary label c : string)
      (d : changelog_dict_t) :
  dict_lookup c (file_under summary d label)
  = (fun l => if String.eqb label c then l ++ [summary] else l)%list
      <$> dict_lookup c d.
Proof.
  unfold file_under. rewrite dict_mem_lookup.
  destruct (dict_lookup label d) as [l|] eqn:Hlabel.
  - apply dict_lookup_append.
  - destruct (String.eqb_spec label c) as [->|Hc].
    + rewrite Hlabel. reflexivity.
    + destruct (dict_lookup c d); reflexivity.
Qed.

(** X10. Filing a summary under the labels of its pull request appends it
    to the list of each category that is among the labels, once for each
    time the label occurs, after what was already filed there; the lists
    of the other categories are left alone, and a label that is no
    category adds no key. *)
Theorem file_under_labels_appends
        (summary c : string) (labels : list string) (d : changelog_dict_t) :
  dict_lookup c (foldl (file_under summary) d labels)
  = (fun l => l ++ repeat summary (count_occ String.string_dec labels c))%list
      <$> dict_lookup c d.
Proof.
  revert d. induction labels as [|label labels IH]; intros d; cbn [foldl].
  - cbn. destruct (dict_lookup c d) as [l|]; cbn; [|reflexivity].
    rewrite app_nil_r. reflexivity.
  - rewrite IH, dict_lookup_file_under. cbn [count_occ].
    destruct (dict_lookup c d) as [l|]; cbn; [|reflexivity].
    destruct (String.eqb_spec label c) as [->|Hc].
    + destruct (String.string_dec c c) as [_|Hcc]; [|congruence].
      cbn. rewrite <- app_assoc. reflexivity.
    + destruct (String.string_dec label c) as [Heq|_]; [congruence|].
      reflexivity.
Qed.

(** ** The summary of a log line (lines 97-103) *)

Lemma append_cons (c : ascii) (s1 s2 : string) :
  String c s1 +:+ s2 = String c (s1 +:+ s2).
Proof. reflexivity. Qed.

Lemma append_empty_l (s : string) : EmptyString +:+ s = s.
Proof. reflexivity. Qed.

Lemma append_empty_r (s : string) : s +:+ EmptyString = s.
Proof.
  induction s as [|c s IH]; [reflexivity|].
  rewrite append_cons, IH. reflexivity.
Qed.

Lemma append_assoc (s1 s2 s3 : string) :
  (s1 +:+ s2) +:+ s3 = s1 +:+ (s2 +:+ s3).
Proof.
  induction s1 as [|c s1 IH]; [reflexivity|].
  rewrite !append_cons, IH. reflexivity.
Qed.

Lemma rev_app_append (s1 s2 s3 : string) :
  String.rev_app s1 s2 +:+ s3 = String.rev_app s1 (s2 +:+ s3).
Proof.
  revert s2. induction s1 as [|c s1 IH]; intros s2; cbn;
    [reflexivity | apply IH].
Qed.

Lemma rev_cons (c : ascii) (cur : string) :
  String.rev (String c cur) = String.rev cur +:+ String c EmptyString.
Proof. unfold String.rev. cbn. rewrite rev_app_append. reflexivity. Qed.

Lemma split_go_field (sep : ascii) (cur f rest : string) :
  no_char sep f ->
  PyString.split_go sep cur (f +:+ String sep rest)
  = (String.rev cur +:+ f) :: PyString.split_go sep EmptyString rest.
Proof.
  unfold no_char. revert cur. induction f as [|c f IH]; intros cur Hf.
  - rewrite append_empty_l, append_empty_r. cbn.
    rewrite Ascii.eqb_refl. reflexivity.
  - cbn in Hf. apply orb_false_iff in Hf as [Hc Hf].
    rewrite append_cons. cbn.
    rewrite Ascii.eqb_sym, Hc, (IH _ Hf), rev_cons, append_assoc.
    reflexivity.
Qed.

Lemma split_go_last (sep : ascii) (cur f : string) :
  no_char sep f -> PyString.split_go sep cur f = [String.rev cur +:+ f].
Proof.
  unfold no_char. revert cur. induction f as [|c f IH]; intros cur Hf; cbn.
  - rewrite append_empty_r. reflexivity.
  - cbn in Hf. apply orb_false_iff in Hf as [Hc Hf].
    rewrite Ascii.eqb_sym, Hc, (IH _ Hf), rev_cons, append_assoc.
    reflexivity.
Qed.

Lemma split_go_nonempty (sep : ascii) (cur s : string) :
  exists x xs, PyString.split_go sep cur s = x :: xs.
Proof.
  revert cur. induction s as [|c s IH]; intros cur; cbn; [eauto|].
  destruct (Ascii.eqb c sep); eauto.
Qed.

(** Joining what a split gave, with the separator, gives the text back. *)
Lemma join_split_go (sep : ascii) (cur s : string) :
  PyString.join (String sep EmptyString) (PyString.split_go sep cur s)
  = String.rev cur +:+ s.
Proof.
  unfold PyString.join. revert cur.
  induction s as [|c s IH]; intros cur; cbn.
  - rewrite append_empty_r. reflexivity.
  - destruct (Ascii.eqb_spec c sep) as [->|Hc].
    + destruct (split_go_nonempty sep EmptyString s) as (x & xs & Hx).
      specialize (IH EmptyString). rewrite Hx in *. cbn in IH.
      cbn. rewrite IH. reflexivity.
    + rewrite IH, rev_cons, append_assoc. reflexivity.
Qed.

Lemma join_split (sep : ascii) (s : string) :
  PyString.join (String sep EmptyString) (PyString.split sep s) = s.
Proof. unfold PyString.split. apply join_split_go. Qed.

(** X11. The summary of a log line is the line less its leading fields:
    less the first (the commit hash) for a line that does not hold "tag:",
    less the first three for a line that does, whatever the second and
    third are. The rest of the line is kept as it is, runs of spaces
    included. *)
Theorem summary_of_drops_the_leading_fields (f1 f2 f3 text : string) :
  no_char " " f1 ->
  (PyString.contains "tag:" (f1 +:+ " " +:+ text) = false ->
   summary_of (f1 +:+ " " +:+ text) = text) /\
  (no_char " " f2 -> no_char " " f3 ->
   PyString.contains "tag:"
     (f1 +:+ " " +:+ f2 +:+ " " +:+ f3 +:+ " " +:+ text) = true ->
   summary_of (f1 +:+ " " +:+ f2 +:+ " " +:+ f3 +:+ " " +:+ text) = text).
Proof.
  intros H1. split.
  - intros Htag. unfold summary_of. rewrite Htag.
    unfold PyString.split. change (" " +:+ text) with (String " " text).
    rewrite (split_go_field " " EmptyString f1 text H1).
    cbn [drop]. apply join_split_go.
  - intros H2 H3 Htag. unfold summary_of. rewrite Htag.
    unfold PyString.split.
    change (" " +:+ f2 +:+ " " +:+ f3 +:+ " " +:+ text)
      with (String " " (f2 +:+ String " " (f3 +:+ String " " text))).
    rewrite (split_go_field " " EmptyString f1 _ H1).
    rewrite (split_go_field " " EmptyString f2 _ H2).
    rewrite (split_go_field " " EmptyString f3 _ H3).
    cbn [drop]. apply join_split_go.
Qed.

Lemma summary_of_witness :
  no_char " " "abc1234" /\
  summary_of ("abc1234" +:+ " " +:+ "(tag: 1.2.0) Fix  the frobnicator (#12)")
  = "Fix  the frobnicator (#12)".
Proof.
  split; [reflexivity|].
  apply (summary_of_drops_the_leading_fields
           "abc1234" "(tag:" "1.2.0)" "Fix  the frobnicator (#12)");
    reflexivity.
Defined.

(** ** The pull-request number of a summary (lines 95-103) *)

(** When the continuation fails at every later position, the repetition
    ends where it started. *)
Lemma star_fallback (k : nat -> list ascii -> option (nat * nat)) (pos : nat)
      (rest : list ascii) :
  (forall a1 a2, rest = (a1 ++ a2)%list -> a1 <> [] ->
                 k (pos + List.length a1)%nat a2 = None) ->
  Re.star k pos rest = k pos rest.
Proof.
  revert pos. induction rest as [|c r IH]; intros pos Hlater; cbn;
    [reflexivity|].
  destruct (Re.is_newline c); [reflexivity|].
  rewrite IH.
  - assert (k (S pos) r = None) as ->; [|reflexivity].
    replace (S pos) with (pos + List.length [c])%nat by (cbn; lia).
    apply Hlater; [reflexivity | discriminate].
  - intros a1 a2 -> Ha1.
    replace (S pos + List.length a1)%nat
      with (pos + List.length (c :: a1))%nat by (cbn; lia).
    apply Hlater; [reflexivity | discriminate].
Qed.

(** The repetition takes the longest run after which the continuation
    succeeds. *)
Lemma star_greedy (k : nat -> list ascii -> option (nat * nat)) (pos : nat)
      (a rest : list ascii) (m : nat * nat) :
  no_newline a ->
  k (pos + List.length a)%nat rest = Some m ->
  (forall a1 a2, rest = (a1 ++ a2)%list -> a1 <> [] ->
                 k (pos + List.length a + List.length a1)%nat a2 = None) ->
  Re.star k pos (a ++ rest) = Some m.
Proof.
  revert pos. induction a as [|c a IH]; intros pos Ha Hk Hlater; cbn in *.
  - rewrite Nat.add_0_r in *. rewrite star_fallback; assumption.
  - unfold no_newline in Ha. cbn in Ha.
    apply andb_true_iff in Ha as [Hc Ha]. apply negb_true_iff in Hc.
    rewrite Hc. rewrite Nat.add_succ_r in Hk.
    rewrite (IH (S pos) Ha Hk); [reflexivity|].
    intros a1 a2 Hrest Ha1. specialize (Hlater a1 a2 Hrest Ha1).
    rewrite Nat.add_succ_r in Hlater. exact Hlater.
Qed.

Lemma no_char_Forall (c : ascii) (s : string) :
  no_char c s -> Forall (fun d => Ascii.eqb c d = false) (list_ascii_of_string s).
Proof.
  unfold no_char. induction s as [|d s IH]; cbn; [constructor|].
  intros [Hd Hs]%orb_false_iff. constructor; auto.
Qed.

Lemma no_char_no_newline (s : string) :
  no_char newline s -> no_newline (list_ascii_of_string s).
Proof.
  unfold no_char, no_newline, newline, Re.is_newline.
  induction s as [|d s IH]; cbn; [reflexivity|].
  intros [Hd Hs]%orb_false_iff.
  rewrite Ascii.eqb_sym, Hd. cbn. auto.
Qed.

Lemma list_of_append (s1 s2 : string) :
  list_ascii_of_string (s1 +:+ s2)
  = (list_ascii_of_string s1 ++ list_ascii_of_string s2)%list.
Proof.
  induction s1 as [|c s1 IH]; [reflexivity|].
  rewrite append_cons. cbn. rewrite IH. reflexivity.
Qed.

Lemma length_list_of (s : string) :
  List.length (list_ascii_of_string s) = String.length s.
Proof. induction s as [|c s IH]; cbn; [reflexivity | f_equal; exact IH]. Qed.

Lemma substring_prefix (b c : string) :
  String.substring 0 (String.length b) (b +:+ c) = b.
Proof.
  induction b as [|d b IH].
  - destruct c; reflexivity.
  - rewrite append_cons. cbn. rewrite IH. reflexivity.
Qed.

Lemma substring_skip (a s : string) (m : nat) :
  String.substring (String.length a) m (a +:+ s) = String.substring 0 m s.
Proof.
  induction a as [|d a IH]; [reflexivity|].
  rewrite append_cons. cbn. exact IH.
Qed.

(** After a failed attempt at a later position: the text from there on
    begins with no open parenthesis. *)
Lemma suffix_head (P : ascii -> Prop) (l a1 a2 : list ascii) :
  Forall P l -> l = (a1 ++ a2)%list ->
  match a2 with [] => True | d :: _ => P d end.
Proof.
  intros Hl ->. apply Forall_app in Hl as [_ H2].
  destruct a2 as [|d a2]; [exact I|]. inversion H2; assumption.
Qed.

(** The group the pattern takes out of a summary that ends with one. *)
Lemma pr_regex_last_group (a b c : string) :
  no_char newline a -> no_char newline b ->
  no_char "(" b -> no_char "(" c -> no_char ")" c ->
  Re.match_group1 pr_regex (a +:+ "(" +:+ b +:+ ")" +:+ c) = Some b.
Proof.
  intros Ha Hb Hob Hoc Hcc.
  change (a +:+ "(" +:+ b +:+ ")" +:+ c)
    with (a +:+ String "(" (b +:+ String ")" c)).
  unfold Re.match_group1, pr_regex.
  rewrite list_of_append. cbn [list_ascii_of_string].
  rewrite list_of_append. cbn [list_ascii_of_string].
  set (la := list_ascii_of_string a). set (lb := list_ascii_of_string b).
  set (lc := list_ascii_of_string c).
  cbn -[Ascii.eqb String.substring].
  assert (Forall (fun d => Ascii.eqb "(" d = false) (lb ++ ")"%char :: lc))
    as Hopen.
  { apply Forall_app. split; [apply no_char_Forall, Hob|].
    constructor; [reflexivity | apply no_char_Forall, Hoc]. }
  rewrite (star_greedy _ 0%nat la _
             (S (List.length la), (S (List.length la) + List.length lb)%nat)).
  - subst la lb. rewrite !length_list_of.
    replace (S (String.length a) + String.length b - S (String.length a))%nat
      with (String.length b) by lia.
    assert (String.length (a +:+ String "(" EmptyString)
            = S (String.length a)) as Hlen.
    { clear. induction a as [|d a IH]; [reflexivity|].
      rewrite append_cons. cbn. rewrite IH. reflexivity. }
    rewrite <- Hlen.
    replace (a +:+ String "(" (b +:+ String ")" c))
      with ((a +:+ String "(" EmptyString) +:+ (b +:+ String ")" c))
      by (rewrite append_assoc; reflexivity).
    rewrite substring_skip, substring_prefix. reflexivity.
  - apply no_char_no_newline, Ha.
  - cbn -[Ascii.eqb]. rewrite Ascii.eqb_refl.
    apply star_greedy.
    + apply no_char_no_newline, Hb.
    + cbn -[Ascii.eqb]. rewrite Ascii.eqb_refl. reflexivity.
    + intros a1 a2 Hrest Ha1.
      destruct a1 as [|d a1]; [congruence|]. injection Hrest as _ Hlc.
      pose proof (suffix_head _ lc a1 a2 (no_char_Forall _ _ Hcc) Hlc) as Hd.
      destruct a2 as [|d' a2]; [reflexivity|]. rewrite Hd. reflexivity.
  - intros a1 a2 Hrest Ha1.
    destruct a1 as [|d a1]; [congruence|]. injection Hrest as _ Hl.
    pose proof (suffix_head _ _ a1 a2 Hopen Hl) as Hd.
    destruct a2 as [|d' a2]; [reflexivity|]. rewrite Hd. reflexivity.
Qed.

(** X12. For a log line whose summary ends with a parenthesised group
    (after it come no more parentheses), the text taken for the pull
    request is that group less its first character, whatever the
    character is and however many bytes it takes: [#12] gives 12, and a
    group written without the hash sign loses its first digit. *)
Theorem summarize_takes_the_last_group
        (line a b c : string) :
  summary_of line = a +:+ "(" +:+ b +:+ ")" +:+ c ->
  no_char newline a -> no_char newline b ->
  no_char "(" b -> no_char "(" c -> no_char ")" c ->
  summarize line = Ok (summary_of line, PyString.tail b).
Proof.
  intros Hsummary Ha Hb Hob Hoc Hcc. unfold summarize.
  rewrite Hsummary at 1.
  rewrite (pr_regex_last_group a b c Ha Hb Hob Hoc Hcc). reflexivity.
Qed.

(** The first character may take several bytes: [é12] less its first
    character is [12]. *)
Lemma tail_drops_a_whole_character :
  PyString.tail (String (ascii_of_nat 195) (String (ascii_of_nat 169) "12"))
  = "12" /\
  summarize ("abc1234 Fix (" +:+ String (ascii_of_nat 195)
                                  (String (ascii_of_nat 169) "12)"))
  = Ok ("Fix (" +:+ String (ascii_of_nat 195)
                      (String (ascii_of_nat 169) "12)"), "12").
Proof. split; vm_compute; reflexivity. Qed.

Lemma summarize_witness :
  summary_of "abc1234 Fix (again) the frobnicator (12) at last"
  = "Fix (again) the frobnicator " +:+ "(" +:+ "12" +:+ ")" +:+ " at last" /\
  summarize "abc1234 Fix (again) the frobnicator (12) at last"
  = Ok ("Fix (again) the frobnicator (12) at last", "2").
Proof.
  split; [reflexivity|].
  apply (summarize_takes_the_last_group
           "abc1234 Fix (again) the frobnicator (12) at last"
           "Fix (again) the frobnicator " "12" " at last"); reflexivity.
Defined.

(** ** The files the module writes *)

Section Files.

Variable E : env.
Variable may_write : string -> bool.

Lemma keeps_ret {A} (a : A) : keeps_files may_write (mret a : M A).
Proof. intros w path _. reflexivity. Qed.

Lemma keeps_lift {A} (o : outcome A) : keeps_files may_write (lift o).
Proof. intros w path _. reflexivity. Qed.

Lemma keeps_bind {A B} (m : M A) (f : A -> M B) :
  keeps_files may_write m -> (forall a, keeps_files may_write (f a)) ->
  keeps_files may_write (m ≫= f).
Proof.
  intros Hm Hf w path Hpath. rewrite bind_run. specialize (Hm w path Hpath).
  destruct (m w) as [[a|e] w']; cbn in *; [|exact Hm].
  rewrite (Hf a w' path Hpath). exact Hm.
Qed.

Lemma keeps_bind_raises {A B} (m : M A) (f : A -> M B) :
  keeps_files may_write m -> always_raises m -> keeps_files may_write (m ≫= f).
Proof.
  intros Hm Hr w path Hpath. rewrite bind_run. specialize (Hm w path Hpath).
  destruct (Hr w) as [e He].
  destruct (m w) as [[a|e'] w']; cbn in *; [discriminate | exact Hm].
Qed.

Lemma keeps_call (e : event) : keeps_files may_write (call E e).
Proof. intros w path _. unfold call. destruct (fails E e); reflexivity. Qed.

Lemma keeps_query {A} (e : event) (o : outcome A) :
  keeps_files may_write (query e o).
Proof. intros w path _. reflexivity. Qed.



Lemma keeps_for_each {A} (l : list A) (f : A -> M unit) :
  (forall a, keeps_files may_write (f a)) ->
  keeps_files may_write (for_each l f).
Proof.
  intros Hf. induction l as [|a l IH]; cbn;
    [apply keeps_ret | apply keeps_bind; auto].
Qed.

Lemma keeps_file_lines (fd : string * string) :
  keeps_files may_write (file_lines fd).
Proof.
  intros w path _. unfold file_lines. destruct fd as [p mode].
  destruct (_ || _); reflexivity.
Qed.

Lemma touch_other (path p : string) (fs : gmap string string) :
  p <> path -> touch path fs !! p = fs !! p.
Proof.
  intros Hp. unfold touch. destruct (fs !! path); [reflexivity|].
  apply lookup_insert_ne. congruence.
Qed.

(** Taking a lock may create the file of that lock and no other. *)
Lemma keeps_with_lock {A} (path : string) (body : M A) :
  may_write path = true ->
  keeps_files may_write body -> keeps_files may_write (with_lock E path body).
Proof.
  intros Hpath Hb w p Hp. unfold with_lock.
  destruct (fails E (EAcquire path)); [reflexivity|].
  specialize (Hb (acquire path w) p Hp).
  destruct (body (acquire path w)) as [r w']. cbn in *. rewrite Hb.
  apply touch_other. intros ->. congruence.
Qed.

(** Opening a file for writing may empty that file and no other. *)
Lemma keeps_with_open {A} (path mode : string)
      (body : string * string -> M A) :
  may_write path = true ->
  (forall fd, keeps_files may_write (body fd)) ->
  keeps_files may_write (with_open E path mode body).
Proof.
  intros Hpath Hb w p Hp. unfold with_open.
  destruct (fails E (EOpen path mode)); [reflexivity|].
  match goal with
  | |- context [body (path, mode) ?w2] =>
      specialize (Hb (path, mode) w2 p Hp);
      destruct (body (path, mode) w2) as [r w3]
  end.
  cbn in *. rewrite Hb. destruct (String.eqb mode "w"); [|reflexivity].
  cbn. apply lookup_insert_ne. intros ->. congruence.
Qed.




Lemma keeps_propose_bump (meta_repo : repo_obj) (repo : Repository)
      (version_number new_version : string) :
  may_write (PyString.os_path_join (local_path repo) "setup.py") = true ->
  keeps_files may_write
    (propose_bump E meta_repo repo version_number new_version).
Proof.
  intros Hpath. unfold propose_bump.
  apply keeps_bind; [apply keeps_lift | intros package_name].
  apply keeps_bind; [apply keeps_lift | intros gh].
  apply keeps_bind; [apply keeps_query | intros pulls].
  apply keeps_bind.
  { destruct (find_pull _ pulls); [apply keeps_ret|].
    apply keeps_bind; [apply keeps_call | intros _; apply keeps_ret]. }
  intros bump_pr.
  apply keeps_bind; [apply keeps_call | intros _].
  apply keeps_bind.
  { unfold edit_setup_py. apply keeps_with_open; [exact Hpath|].
    intros fd. apply keeps_bind; [apply keeps_file_lines | intros ls].
    apply keeps_for_each. intros line. apply keeps_lift. }
  intros _. apply keeps_bind; [apply keeps_call | intros _].
  destruct bump_pr; [apply keeps_ret | apply keeps_call].
Qed.


End Files.




(** The release of qiskit-terra 1.2.0 creates the lock file and leaves the
    manifest alone. *)
Lemma lock_file_of_the_terra_release :
  files (snd (finish_release (Scenario.quiet [] []) "1.2.0" Scenario.terra
                Scenario.conf "Qiskit/qiskit"
                (init_world {[ Scenario.setup_py := Scenario.bumped_manifest ]})))
  = {[ "/work/lock/qiskit-terra" := EmptyString;
       Scenario.setup_py := Scenario.bumped_manifest ]}.
Proof. apply map_eq. intros path. vm_compute. reflexivity. Qed.
